(** * HelloSkia (Win32 + Ganesh + D3D12): the frame lifecycle controller

    A shallow embedding of [src/Win32-Ganesh-D3D12.cpp].  The program is
    glue code around three native collaborators (the window system, D3D12 /
    DXGI and Skia), so the embedding threads the controller's own state
    through a small state-and-exception monad and records every call made
    to a collaborator in a log.  What a collaborator answers (an HRESULT,
    the swap chain's description, a clock reading) is supplied by a
    [Platform], over which every statement is quantified. *)

From stdpp Require Import base numbers list.
From Stdlib Require Import ZArith Lia Sorted.

Local Open Scope Z_scope.

(** ** Machine integers *)

(** [UINT64]: the width of a D3D12 fence value ([ID3D12CommandQueue::Signal]
    takes a [UINT64], [GrD3DFenceInfo::fValue] is a [uint64_t]). *)
Definition UINT64_MODULUS : Z := 2 ^ 64.
Definition UINT_MODULUS : Z := 2 ^ 32.

Definition to_uint64 (z : Z) : Z := z mod UINT64_MODULUS.
Definition to_uint (z : Z) : Z := z mod UINT_MODULUS.

(** [static_cast<int>] of a [UINT]. *)
Definition to_int (z : Z) : Z :=
  let r := z mod UINT_MODULUS in
  if r <? 2 ^ 31 then r else r - UINT_MODULUS.

(** [LOWORD] and [HIWORD] of an [LPARAM]. *)
Definition LOWORD (l : Z) : Z := Z.land l 65535.
Definition HIWORD (l : Z) : Z := Z.land (Z.shiftr l 16) 65535.

(** ** Native results *)

Definition HRESULT := Z.

(** [SUCCEEDED(hr)] is [hr >= 0] on the signed 32-bit code. *)
Definition SUCCEEDED (hr : HRESULT) : bool := 0 <=? hr.

Definition S_OK : HRESULT := 0.
(** [E_FAIL], 0x80004005 read as a signed 32-bit value. *)
Definition E_FAIL : HRESULT := -2147467259.

(** Window messages. *)
Definition WM_SIZE : Z := 5.
Definition WM_CLOSE : Z := 16.
Definition WM_QUIT : Z := 18.

Record MSG := { message : Z; wParam : Z; lParam : Z }.

(** ** Data model *)

Record PixelSize := { mWidth : Z; mHeight : Z }.

(** The Skia surface wrapped around a swap-chain buffer, with the extent
    given to [GrBackendRenderTarget]. *)
Record SkSurface := { fWidth : Z; fHeight : Z }.

(** One position of the ring.  The slot's command allocator is created
    once and lives as long as the window; it is identified by the slot's
    index. *)
Module FrameContext.
Record t := mk {
  mRenderTarget : option nat;      (* the swap-chain buffer held, if any *)
  mRenderTargetView : Z;           (* D3D12_CPU_DESCRIPTOR_HANDLE::ptr *)
  mSkSurface : option SkSurface;
  mFenceValue : Z
}.
End FrameContext.
Abbreviation FrameContext := FrameContext.t.

Record HelloSkiaWindow := {
  mFrames : list FrameContext;
  mFrameIndex : nat;
  mFenceValue : Z;
  mFrameCounter : Z;
  mWindowSize : PixelSize;
  mPendingResize : option PixelSize;
  mExitCode : option Z
}.

(** ** Calls into the collaborators *)

Inductive NativeCall :=
| GrDirectContext_flushAndSubmit (syncCpu : bool)
| CommandQueue_Signal (value : Z)
| Fence_SetEventOnCompletion (value : Z)
| WaitForSingleObject                       (* (mFenceEvent, INFINITE) *)
| SkSurface_unref (slot : nat)
| RenderTarget_Release (slot : nat)
| SwapChain_ResizeBuffers (width height : Z)
| SwapChain_GetBuffer (slot : nat)
| RenderTarget_SetName (slot : nat)
| Device_CreateRenderTargetView (slot : nat) (view : Z)
| SwapChain_GetDesc1
| RenderTarget_AddRef (slot : nat)
| SkSurfaces_WrapBackendRenderTarget (slot : nat) (width height : Z)
| CommandAllocator_Reset (slot : nat)
| CommandList_Reset (slot : nat)
| CommandList_ResourceBarrier (slot : nat)  (* PRESENT -> RENDER_TARGET *)
| CommandList_ClearRenderTargetView (view : Z)
| CommandList_OMSetRenderTargets (view : Z)
| CommandList_SetDescriptorHeaps
| CommandList_Close
| CommandQueue_ExecuteCommandLists
| GrDirectContext_wait (value : Z)          (* GPU-side wait on the fence *)
| BackendRenderTarget_setD3DResourceState (slot : nat)
| SkCanvas_drawRoundRect (slot : nat) (width height : Z)
| SkCanvas_drawString (slot : nat) (frame : Z)
| GrDirectContext_flush (slot : nat) (signal : Z)
| GrDirectContext_submit (syncCpu : bool)
| SwapChain_Present
| OutputDebugStringA (hr : HRESULT)
| TranslateMessage (msg : MSG)
| DefWindowProcW (msg : MSG)
| MsgWaitForMultipleObjects (millis : Z).

(** What the collaborators answer.  [hresult n c] is the code reported by
    call [c] when it is the [n]-th call of the run, so a platform can let
    any single call fail. *)
Record Platform := {
  hresult : nat -> NativeCall -> HRESULT;
  (* extent of the window's client area, which DXGI substitutes for a
     zero extent given to ResizeBuffers *)
  clientArea : nat -> PixelSize;
  (* content of an uninitialised DXGI_SWAP_CHAIN_DESC1 *)
  indeterminate : nat -> PixelSize;
  rtvStart : Z;
  rtvStep : Z;
  (* steady_clock time, in nanoseconds, that an iteration of the loop took *)
  frameDuration : nat -> Z
}.

(** The controller together with the native state it depends on and the
    log of calls made so far, oldest first. *)
Record World := {
  window : HelloSkiaWindow;
  swapChainDesc : PixelSize;
  calls : list NativeCall
}.

(** ** The monad: state, log and C++ exceptions *)

Inductive exception :=
| system_error (ec : HRESULT)
| out_of_range
| null_pointer.

Inductive outcome (A : Type) :=
| Return (a : A)
| Throw (e : exception).
Arguments Return {A} a.
Arguments Throw {A} e.

Definition M (A : Type) : Type := World -> outcome A * World.

Definition ret {A} (a : A) : M A := fun w => (Return a, w).

Definition bind {A B} (m : M A) (k : A -> M B) : M B :=
  fun w =>
    match m w with
    | (Return a, w') => k a w'
    | (Throw e, w') => (Throw e, w')
    end.

Definition throw {A} (e : exception) : M A := fun w => (Throw e, w).

Declare Scope cpp_scope.
Delimit Scope cpp_scope with cpp.
Notation "x <- m ;; k" := (bind m (fun x => k))
  (at level 100, m at next level, right associativity) : cpp_scope.
Notation "m ;; k" := (bind m (fun _ => k))
  (at level 100, right associativity) : cpp_scope.
Local Open Scope cpp_scope.

Definition get : M HelloSkiaWindow := fun w => (Return (window w), w).

Definition put (s : HelloSkiaWindow) : M unit :=
  fun w => (Return tt, {| window := s; swapChainDesc := swapChainDesc w;
                          calls := calls w |}).

Definition modify (f : HelloSkiaWindow -> HelloSkiaWindow) : M unit :=
  s <- get ;; put (f s).

(** Field updates. *)
Definition set_mFrames (fs : list FrameContext) (s : HelloSkiaWindow) :=
  {| mFrames := fs; mFrameIndex := mFrameIndex s; mFenceValue := mFenceValue s;
     mFrameCounter := mFrameCounter s; mWindowSize := mWindowSize s;
     mPendingResize := mPendingResize s; mExitCode := mExitCode s |}.
Definition set_mFrameIndex (i : nat) (s : HelloSkiaWindow) :=
  {| mFrames := mFrames s; mFrameIndex := i; mFenceValue := mFenceValue s;
     mFrameCounter := mFrameCounter s; mWindowSize := mWindowSize s;
     mPendingResize := mPendingResize s; mExitCode := mExitCode s |}.
Definition set_mFenceValue (v : Z) (s : HelloSkiaWindow) :=
  {| mFrames := mFrames s; mFrameIndex := mFrameIndex s; mFenceValue := v;
     mFrameCounter := mFrameCounter s; mWindowSize := mWindowSize s;
     mPendingResize := mPendingResize s; mExitCode := mExitCode s |}.
Definition set_mFrameCounter (v : Z) (s : HelloSkiaWindow) :=
  {| mFrames := mFrames s; mFrameIndex := mFrameIndex s;
     mFenceValue := mFenceValue s; mFrameCounter := v;
     mWindowSize := mWindowSize s; mPendingResize := mPendingResize s;
     mExitCode := mExitCode s |}.
Definition set_mWindowSize (p : PixelSize) (s : HelloSkiaWindow) :=
  {| mFrames := mFrames s; mFrameIndex := mFrameIndex s;
     mFenceValue := mFenceValue s; mFrameCounter := mFrameCounter s;
     mWindowSize := p; mPendingResize := mPendingResize s;
     mExitCode := mExitCode s |}.
Definition set_mPendingResize (p : option PixelSize) (s : HelloSkiaWindow) :=
  {| mFrames := mFrames s; mFrameIndex := mFrameIndex s;
     mFenceValue := mFenceValue s; mFrameCounter := mFrameCounter s;
     mWindowSize := mWindowSize s; mPendingResize := p;
     mExitCode := mExitCode s |}.
Definition set_mExitCode (c : option Z) (s : HelloSkiaWindow) :=
  {| mFrames := mFrames s; mFrameIndex := mFrameIndex s;
     mFenceValue := mFenceValue s; mFrameCounter := mFrameCounter s;
     mWindowSize := mWindowSize s; mPendingResize := mPendingResize s;
     mExitCode := c |}.

Definition set_frame_mRenderTarget (r : option nat) (f : FrameContext) :=
  FrameContext.mk r (FrameContext.mRenderTargetView f)
    (FrameContext.mSkSurface f) (FrameContext.mFenceValue f).
Definition set_frame_mRenderTargetView (v : Z) (f : FrameContext) :=
  FrameContext.mk (FrameContext.mRenderTarget f) v
    (FrameContext.mSkSurface f) (FrameContext.mFenceValue f).
Definition set_frame_mSkSurface (s : option SkSurface) (f : FrameContext) :=
  FrameContext.mk (FrameContext.mRenderTarget f)
    (FrameContext.mRenderTargetView f) s (FrameContext.mFenceValue f).
Definition set_frame_mFenceValue (v : Z) (f : FrameContext) :=
  FrameContext.mk (FrameContext.mRenderTarget f)
    (FrameContext.mRenderTargetView f) (FrameContext.mSkSurface f) v.

(** [frame.field = ...] through the reference [frame = mFrames[i]]. *)
Definition update_frame (i : nat) (f : FrameContext -> FrameContext) : M unit :=
  modify (fun s => set_mFrames (alter f i (mFrames s)) s).

(** [++mFenceValue] on the 64-bit counter; yields the new value. *)
Definition next_mFenceValue : M Z :=
  s <- get ;;
  let v := to_uint64 (mFenceValue s + 1) in
  put (set_mFenceValue v s) ;;
  ret v.

(** Whether a smart pointer holds an object. *)
Definition held {A} (p : option A) : bool :=
  match p with Some _ => true | None => false end.

Fixpoint for_each {A} (l : list A) (body : A -> M unit) : M unit :=
  match l with
  | [] => ret tt
  | x :: l' => body x ;; for_each l' body
  end.

(** What the window system delivers while the loop pumps messages: a sent
    message reaches the window procedure from inside [PeekMessage]; a posted
    one is handed to the loop, and [DispatchMessage] passes it on to the
    window procedure when it is addressed to the window. *)
Inductive Delivery :=
| Sent (msg : MSG)
| Posted (msg : MSG) (hwnd : bool).

(** How the loop stands. *)
Inductive status :=
| Exited (code : Z)
| Terminated (e : exception)
| Running.

Section Controller.

(** Both constants are declared in [Win32-Ganesh-D3D12.hpp], which is not
    part of the sources at hand; they are parameters here. *)
Variable SwapChainLength : nat.
Variable MinimumFrameRate : Z.

Variable platform : Platform.

(** Make a native call: log it and hand back the code it reports. *)
Definition call (c : NativeCall) : M HRESULT :=
  fun w =>
    (Return (hresult platform (length (calls w)) c),
     {| window := window w; swapChainDesc := swapChainDesc w;
        calls := calls w ++ [c] |}).

(** A call whose result, if any, the program does not look at. *)
Definition call_ (c : NativeCall) : M unit := call c ;; ret tt.

(** [CheckHResult]: return on success; otherwise write the diagnostic to
    the debugger and throw [std::system_error]. *)
Definition CheckHResult (hr : HRESULT) : M unit :=
  if SUCCEEDED hr then ret tt
  else call_ (OutputDebugStringA hr) ;; throw (system_error hr).

Definition checked (c : NativeCall) : M unit :=
  hr <- call c ;; CheckHResult hr.

(** [mFrames.at(i)]: throws [std::out_of_range] past the end. *)
Definition at_frame (i : nat) : M FrameContext :=
  s <- get ;;
  match mFrames s !! i with
  | Some frame => ret frame
  | None => throw out_of_range
  end.

(** ** [CleanupFrameContexts] *)

(** The body of the loop over [mFrames]: dropping the [sk_sp] and the
    [com_ptr] releases what they hold. *)
Definition release_frame (i : nat) : M unit :=
  s <- get ;;
  match mFrames s !! i with
  | None => ret tt
  | Some frame =>
      (if held (FrameContext.mSkSurface frame) then call_ (SkSurface_unref i)
       else ret tt) ;;
      update_frame i (set_frame_mSkSurface None) ;;
      (if held (FrameContext.mRenderTarget frame) then call_ (RenderTarget_Release i)
       else ret tt) ;;
      update_frame i (set_frame_mRenderTarget None) ;;
      update_frame i (set_frame_mRenderTargetView 0) ;;
      update_frame i (set_frame_mFenceValue 0)
  end.

Definition CleanupFrameContexts : M unit :=
  call_ (GrDirectContext_flushAndSubmit true) ;;
  fenceValue <- next_mFenceValue ;;
  checked (CommandQueue_Signal fenceValue) ;;
  checked (Fence_SetEventOnCompletion fenceValue) ;;
  call_ WaitForSingleObject ;;
  s <- get ;;
  for_each (seq 0 (length (mFrames s))) release_frame ;;
  modify (set_mFrameIndex 0%nat).

(** ** [CreateRenderTargets] *)

(** [mSwapChain->GetDesc1(&desc)]: on failure [desc] is left as it was. *)
Definition GetDesc1 (desc : PixelSize) : M (HRESULT * PixelSize) :=
  fun w =>
    let hr := hresult platform (length (calls w)) SwapChain_GetDesc1 in
    (Return (hr, if SUCCEEDED hr then swapChainDesc w else desc),
     {| window := window w; swapChainDesc := swapChainDesc w;
        calls := calls w ++ [SwapChain_GetDesc1] |}).

(** A local variable declared without an initialiser. *)
Definition uninitialised : M PixelSize :=
  fun w => (Return (indeterminate platform (length (calls w))), w).

Definition create_render_target (i : nat) : M unit :=
  (* frame.mRenderTarget.put() lets go of what the pointer held *)
  s <- get ;;
  (match mFrames s !! i with
   | Some frame =>
       if held (FrameContext.mRenderTarget frame) then call_ (RenderTarget_Release i)
       else ret tt
   | None => ret tt
   end) ;;
  update_frame i (set_frame_mRenderTarget None) ;;
  checked (SwapChain_GetBuffer i) ;;
  update_frame i (set_frame_mRenderTarget (Some i)) ;;
  call_ (RenderTarget_SetName i) ;;
  let view :=
    to_uint64 (rtvStart platform + to_uint (Z.of_nat i * rtvStep platform)) in
  update_frame i (set_frame_mRenderTargetView view) ;;
  call_ (Device_CreateRenderTargetView i view) ;;
  desc <- uninitialised ;;
  r <- GetDesc1 desc ;;
  let desc := snd r in
  call_ (RenderTarget_AddRef i) ;;
  let width := to_int (mWidth desc) in
  let height := to_int (mHeight desc) in
  wrapped <- call (SkSurfaces_WrapBackendRenderTarget i width height) ;;
  (* the factory hands back a null surface when it cannot wrap *)
  update_frame i
    (set_frame_mSkSurface
       (if SUCCEEDED wrapped
        then Some {| fWidth := width; fHeight := height |} else None)).

Definition CreateRenderTargets : M unit :=
  for_each (seq 0 SwapChainLength) create_render_target.

(** [mSwapChain->ResizeBuffers(0, width, height, DXGI_FORMAT_UNKNOWN, 0)]:
    when it succeeds the swap chain takes the extent asked for, a zero
    standing for the extent of the client area. *)
Definition ResizeBuffers (size : PixelSize) : M HRESULT :=
  fun w =>
    let n := length (calls w) in
    let c := SwapChain_ResizeBuffers (mWidth size) (mHeight size) in
    let hr := hresult platform n c in
    let resized :=
      {| mWidth := if mWidth size =? 0 then mWidth (clientArea platform n)
                   else mWidth size;
         mHeight := if mHeight size =? 0 then mHeight (clientArea platform n)
                    else mHeight size |} in
    (Return hr,
     {| window := window w;
        swapChainDesc := if SUCCEEDED hr then resized else swapChainDesc w;
        calls := calls w ++ [c] |}).

(** ** Rendering *)

Definition RenderNonSkiaContent (i : nat) : M unit :=
  frame <- at_frame i ;;
  call_ (CommandList_ResourceBarrier i) ;;
  call_ (CommandList_ClearRenderTargetView
           (FrameContext.mRenderTargetView frame)) ;;
  call_ (CommandList_OMSetRenderTargets
           (FrameContext.mRenderTargetView frame)) ;;
  call_ CommandList_SetDescriptorHeaps ;;
  checked CommandList_Close ;;
  call_ CommandQueue_ExecuteCommandLists ;;
  checked (CommandQueue_Signal (FrameContext.mFenceValue frame)).

(** [RenderSkiaContent] on a canvas; [strokeWidth] is 2. *)
Definition RenderSkiaContent_canvas (i : nat) : M unit :=
  s <- get ;;
  call_ (SkCanvas_drawRoundRect i
           (to_int (mWidth (mWindowSize s)))
           (to_int (mHeight (mWindowSize s) - 2))) ;;
  call_ (SkCanvas_drawString i (mFrameCounter s)).

(** [RenderSkiaContent] on a frame. *)
Definition RenderSkiaContent (i : nat) : M unit :=
  frame <- at_frame i ;;
  call_ (GrDirectContext_wait (FrameContext.mFenceValue frame)) ;;
  match FrameContext.mSkSurface frame with
  | None => throw null_pointer      (* frame.mSkSurface->getCanvas() *)
  | Some _ =>
      call_ (BackendRenderTarget_setD3DResourceState i) ;;
      RenderSkiaContent_canvas i ;;
      value <- next_mFenceValue ;;
      update_frame i (set_frame_mFenceValue value) ;;
      call_ (GrDirectContext_flush i value) ;;
      call_ (GrDirectContext_submit false)
  end.

(** Lines 392-404 of [RenderFrame]: the pending resize is applied. *)
Definition apply_pending_resize : M unit :=
  s <- get ;;
  match mPendingResize s with
  | Some size =>
      CleanupFrameContexts ;;
      hr <- ResizeBuffers size ;;
      CheckHResult hr ;;
      CreateRenderTargets ;;
      modify (set_mWindowSize size) ;;
      modify (set_mPendingResize None)
  | None => ret tt
  end.

(** Lines 406-422 of [RenderFrame]: one frame on the next slot. *)
Definition render_on_next_slot : M unit :=
  modify (fun s => set_mFrameCounter (to_uint64 (mFrameCounter s + 1)) s) ;;
  s <- get ;;
  let i := mFrameIndex s in
  frame <- at_frame i ;;
  modify (set_mFrameIndex ((i + 1) `mod` SwapChainLength)%nat) ;;
  (if FrameContext.mFenceValue frame =? 0 then ret tt
   else
     (* the HRESULT of SetEventOnCompletion is dropped here *)
     call_ (Fence_SetEventOnCompletion (FrameContext.mFenceValue frame)) ;;
     call_ WaitForSingleObject) ;;
  checked (CommandAllocator_Reset i) ;;
  value <- next_mFenceValue ;;
  update_frame i (set_frame_mFenceValue value) ;;
  checked (CommandList_Reset i) ;;
  RenderNonSkiaContent i ;;
  RenderSkiaContent i ;;
  checked SwapChain_Present.

Definition RenderFrame : M unit :=
  apply_pending_resize ;;
  render_on_next_slot.

(** [RenderFrame] called [k] times in a row. *)
Fixpoint RenderFrames (k : nat) : M unit :=
  match k with
  | O => ret tt
  | S k' => RenderFrame ;; RenderFrames k'
  end.

(** ** The window procedure and the loop *)

(** [WindowProc] reaches the window through [gInstance]. *)
Definition WindowProc (msg : MSG) : M Z :=
  if message msg =? WM_SIZE then
    modify (set_mPendingResize
              (Some {| mWidth := LOWORD (lParam msg);
                       mHeight := HIWORD (lParam msg) |})) ;;
    ret 0
  else
    (if message msg =? WM_CLOSE then modify (set_mExitCode (Some 0))
     else ret tt) ;;
    call (DefWindowProcW msg).

(** The inner [while (PeekMessage(...))] loop over what the window system
    delivers during one iteration.  It yields the value [Run] returns
    when [WM_QUIT] is taken off the queue. *)
Fixpoint pump (batch : list Delivery) : M (option Z) :=
  match batch with
  | [] => ret None
  | Sent msg :: rest => WindowProc msg ;; pump rest
  | Posted msg hwnd :: rest =>
      call_ (TranslateMessage msg) ;;
      (* DispatchMessage *)
      (if hwnd then WindowProc msg ;; ret tt else ret tt) ;;
      if message msg =? WM_QUIT then
        s <- get ;; ret (Some (default 0 (mExitCode s)))
      else pump rest
  end.

(** [frameInterval], in milliseconds. *)
Definition frameInterval : Z := Z.quot 1000 MinimumFrameRate.

(** The end of an iteration: sleep for what is left of the interval. *)
Definition pace : M unit :=
  fun w =>
    let elapsed := frameDuration platform (length (calls w)) in
    let interval := frameInterval * 1000000 in
    if elapsed >? interval then (Return tt, w)
    else
      call_ (MsgWaitForMultipleObjects
               (to_uint (Z.quot (interval - elapsed) 1000000))) w.

(** [Run] is [noexcept]: an exception that reaches it ends the process in
    [std::terminate].  The loop is driven by [feed], one batch of
    deliveries for each iteration; [Running] says that the feed is used
    up and the loop has not returned. *)
Fixpoint Run (feed : list (list Delivery)) (w : World) : status * World :=
  match mExitCode (window w) with
  | Some code => (Exited code, w)
  | None =>
      match feed with
      | [] => (Running, w)
      | batch :: feed' =>
          match pump batch w with
          | (Throw e, w1) => (Terminated e, w1)
          | (Return (Some code), w1) => (Exited code, w1)
          | (Return None, w1) =>
              match (RenderFrame ;; pace) w1 with
              | (Throw e, w2) => (Terminated e, w2)
              | (Return _, w2) => Run feed' w2
              end
          end
      end
  end.

(** [wWinMain] from the constructed window on: [Run], then the
    destructor, which is [CleanupFrameContexts]. *)
Definition wWinMain (feed : list (list Delivery)) (w : World)
  : status * World :=
  match Run feed w with
  | (Exited code, w1) =>
      match CleanupFrameContexts w1 with
      | (Return _, w2) => (Exited code, w2)
      | (Throw e, w2) => (Terminated e, w2)
      end
  | r => r
  end.

End Controller.

(** The log of each of [k] successive calls of [RenderFrame]; the run ends
    with the first call that throws. *)
Fixpoint frame_logs (SwapChainLength : nat) (platform : Platform) (k : nat)
    (w : World) : list (list NativeCall) :=
  match k with
  | O => []
  | S k' =>
      match RenderFrame SwapChainLength platform w with
      | (Return _, w') =>
          drop (length (calls w)) (calls w')
          :: frame_logs SwapChainLength platform k' w'
      | (Throw _, w') => [drop (length (calls w)) (calls w')]
      end
  end.

(** ** The window after construction *)

(** Modelled from the spec: the member initialisers are in
    [Win32-Ganesh-D3D12.hpp], which is not part of the sources at hand.  The
    spec has every Frame Slot start Idle with no marker, the ring start at
    slot 0, no resize pending and no exit code; the counters start at 0. *)
Definition default_members (SwapChainLength : nat) : HelloSkiaWindow :=
  {| mFrames := replicate SwapChainLength (FrameContext.mk None 0 None 0);
     mFrameIndex := 0%nat;
     mFenceValue := 0;
     mFrameCounter := 0;
     mWindowSize := {| mWidth := 0; mHeight := 0 |};
     mPendingResize := None;
     mExitCode := None |}.

(** The end of the constructor: [InitializeD3D] takes the window size from
    the swap chain it has just created, and [CreateRenderTargets] fills the
    slots.  The device, queue and context creation before that does not
    touch the controller's members. *)
Definition construct (SwapChainLength : nat) (platform : Platform)
    (desc : PixelSize) : outcome unit * World :=
  (modify (set_mWindowSize desc) ;;
   CreateRenderTargets SwapChainLength platform)
    {| window := default_members SwapChainLength;
       swapChainDesc := desc;
       calls := [] |}.

(** ** Reading a log *)

(** The calls made between two worlds of one run. *)
Definition emitted (w w' : World) : list NativeCall :=
  drop (length (calls w)) (calls w').

(** The markers signalled on the queue: by [ID3D12CommandQueue::Signal] and
    by the semaphore of a Skia flush. *)
Definition signalled (c : NativeCall) : option Z :=
  match c with
  | CommandQueue_Signal v => Some v
  | GrDirectContext_flush _ v => Some v
  | _ => None
  end.

(** The slots whose command allocator is reset. *)
Definition visited (c : NativeCall) : option nat :=
  match c with
  | CommandAllocator_Reset i => Some i
  | _ => None
  end.

Definition slots_of (l : list NativeCall) : list nat := omap visited l.
Definition markers_of (l : list NativeCall) : list Z := omap signalled l.

(** A platform on which every call succeeds. *)
Definition succeeds (platform : Platform) : Prop :=
  forall n c, SUCCEEDED (hresult platform n c) = true.

Definition quiet : Platform :=
  {| hresult := fun _ _ => S_OK;
     clientArea := fun _ => {| mWidth := 800; mHeight := 600 |};
     indeterminate := fun _ => {| mWidth := 0; mHeight := 0 |};
     rtvStart := 4096;
     rtvStep := 32;
     frameDuration := fun _ => 0 |}.

(** ** What quiescence and recreation do *)

(** A slot after [CleanupFrameContexts]. *)
Definition released : FrameContext := FrameContext.mk None 0 None 0.

(** The releases of the loop of [CleanupFrameContexts], from slot [i] on. *)
Fixpoint release_calls (i : nat) (frames : list FrameContext)
  : list NativeCall :=
  match frames with
  | [] => []
  | f :: fs =>
      (if held (FrameContext.mSkSurface f) then [SkSurface_unref i] else []) ++
      (if held (FrameContext.mRenderTarget f) then [RenderTarget_Release i]
       else []) ++
      release_calls (S i) fs
  end.

(** The calls of [CleanupFrameContexts] when neither check fails. *)
Definition quiesce_calls (s : HelloSkiaWindow) : list NativeCall :=
  [GrDirectContext_flushAndSubmit true;
   CommandQueue_Signal (to_uint64 (mFenceValue s + 1));
   Fence_SetEventOnCompletion (to_uint64 (mFenceValue s + 1));
   WaitForSingleObject] ++
  release_calls 0 (mFrames s).

(** The controller after it. *)
Definition quiesced (s : HelloSkiaWindow) : HelloSkiaWindow :=
  {| mFrames := replicate (length (mFrames s)) released;
     mFrameIndex := 0%nat;
     mFenceValue := to_uint64 (mFenceValue s + 1);
     mFrameCounter := mFrameCounter s;
     mWindowSize := mWindowSize s;
     mPendingResize := mPendingResize s;
     mExitCode := mExitCode s |}.

(** The render-target view of slot [i]. *)
Definition rtv (p : Platform) (i : nat) : Z :=
  to_uint64 (rtvStart p + to_uint (Z.of_nat i * rtvStep p)).

(** The surface wrapped around a buffer of a swap chain of extent [desc]. *)
Definition surface_of (desc : PixelSize) : SkSurface :=
  {| fWidth := to_int (mWidth desc); fHeight := to_int (mHeight desc) |}.

(** Slot [i] after [CreateRenderTargets] on a swap chain of extent [desc],
    when no call fails. *)
Definition created (p : Platform) (desc : PixelSize) (i : nat)
    (f : FrameContext) : FrameContext :=
  FrameContext.mk (Some i) (rtv p i) (Some (surface_of desc))
    (FrameContext.mFenceValue f).

Fixpoint create_frames (p : Platform) (desc : PixelSize) (i : nat)
    (frames : list FrameContext) : list FrameContext :=
  match frames with
  | [] => []
  | f :: fs => created p desc i f :: create_frames p desc (S i) fs
  end.

Fixpoint create_calls (p : Platform) (desc : PixelSize) (i : nat)
    (frames : list FrameContext) : list NativeCall :=
  match frames with
  | [] => []
  | f :: fs =>
      (if held (FrameContext.mRenderTarget f) then [RenderTarget_Release i]
       else []) ++
      [SwapChain_GetBuffer i;
       RenderTarget_SetName i;
       Device_CreateRenderTargetView i (rtv p i);
       SwapChain_GetDesc1;
       RenderTarget_AddRef i;
       SkSurfaces_WrapBackendRenderTarget i
         (to_int (mWidth desc)) (to_int (mHeight desc))] ++
      create_calls p desc (S i) fs
  end.

(** The extent a swap chain takes from [ResizeBuffers]. *)
Definition resized (client size : PixelSize) : PixelSize :=
  {| mWidth := if mWidth size =? 0 then mWidth client else mWidth size;
     mHeight := if mHeight size =? 0 then mHeight client else mHeight size |}.

(** A controller that can render: the ring is complete, the index is
    inside it and every slot has its surface. *)
Definition ready (SwapChainLength : nat) (s : HelloSkiaWindow) : Prop :=
  length (mFrames s) = SwapChainLength /\
  (mFrameIndex s < SwapChainLength)%nat /\
  Forall (fun f => held (FrameContext.mSkSurface f) = true) (mFrames s).

(** The extent of the swap chain after the resize of [RenderFrame] started
    in [w] with [size] pending. *)
Definition new_desc (p : Platform) (w : World) (size : PixelSize) : PixelSize :=
  resized (clientArea p (length (calls w ++ quiesce_calls (window w)))) size.

(** The calls of lines 392-404 when no call fails, and the controller after
    them. *)
Definition resize_calls (p : Platform) (desc : PixelSize) (size : PixelSize)
    (s : HelloSkiaWindow) : list NativeCall :=
  quiesce_calls s ++
  [SwapChain_ResizeBuffers (mWidth size) (mHeight size)] ++
  create_calls p desc 0 (replicate (length (mFrames s)) released).

Definition after_resize (p : Platform) (desc : PixelSize) (size : PixelSize)
    (s : HelloSkiaWindow) : HelloSkiaWindow :=
  {| mFrames := create_frames p desc 0 (replicate (length (mFrames s)) released);
     mFrameIndex := 0%nat;
     mFenceValue := to_uint64 (mFenceValue s + 1);
     mFrameCounter := mFrameCounter s;
     mWindowSize := size;
     mPendingResize := None;
     mExitCode := mExitCode s |}.

(** Who puts a marker on the queue. *)
Inductive submitter := NonLibrary | Library.

Definition submission (c : NativeCall) : option (submitter * Z) :=
  match c with
  | CommandQueue_Signal v => Some (NonLibrary, v)
  | GrDirectContext_flush _ v => Some (Library, v)
  | _ => None
  end.

Definition submissions_of (l : list NativeCall) : list (submitter * Z) :=
  omap submission l.

(** The ring walked [k] times from slot [i]. *)
Fixpoint round_robin (SwapChainLength : nat) (i k : nat) : list nat :=
  match k with
  | O => []
  | S k' => i :: round_robin SwapChainLength ((i + 1) `mod` SwapChainLength) k'
  end.

(** The markers put on the queue by [k] frames, call by call, when the
    counter stands at [c] before the first. *)
Fixpoint markers (c : Z) (k : nat) : list (list (submitter * Z)) :=
  match k with
  | O => []
  | S k' =>
      let a := to_uint64 (c + 1) in
      let b := to_uint64 (a + 1) in
      [(NonLibrary, a); (Library, b)] :: markers b k'
  end.

(** ** The calls each part of [RenderFrame] can make *)

(** Calls that lines 392-404 (quiescence, resize, recreation) can make. *)
Definition resize_call (c : NativeCall) : bool :=
  match c with
  | GrDirectContext_flushAndSubmit _ | CommandQueue_Signal _
  | Fence_SetEventOnCompletion _ | WaitForSingleObject
  | SkSurface_unref _ | RenderTarget_Release _
  | SwapChain_ResizeBuffers _ _ | SwapChain_GetBuffer _
  | RenderTarget_SetName _ | Device_CreateRenderTargetView _ _
  | SwapChain_GetDesc1 | RenderTarget_AddRef _
  | SkSurfaces_WrapBackendRenderTarget _ _ _ | OutputDebugStringA _ => true
  | _ => false
  end.

(** Calls that quiescence alone can make when no check fails. *)
Definition quiesce_call (c : NativeCall) : bool :=
  match c with
  | GrDirectContext_flushAndSubmit _ | CommandQueue_Signal _
  | Fence_SetEventOnCompletion _ | WaitForSingleObject
  | SkSurface_unref _ | RenderTarget_Release _ => true
  | _ => false
  end.

(** Calls that recreation alone can make. *)
Definition create_call (c : NativeCall) : bool :=
  match c with
  | RenderTarget_Release _ | SwapChain_GetBuffer _
  | RenderTarget_SetName _ | Device_CreateRenderTargetView _ _
  | SwapChain_GetDesc1 | RenderTarget_AddRef _
  | SkSurfaces_WrapBackendRenderTarget _ _ _ | OutputDebugStringA _ => true
  | _ => false
  end.

(** Calls that lines 406-422 (the frame proper) can make. *)
Definition frame_call (c : NativeCall) : bool :=
  match c with
  | Fence_SetEventOnCompletion _ | WaitForSingleObject
  | CommandAllocator_Reset _ | CommandList_Reset _
  | CommandList_ResourceBarrier _ | CommandList_ClearRenderTargetView _
  | CommandList_OMSetRenderTargets _ | CommandList_SetDescriptorHeaps
  | CommandList_Close | CommandQueue_ExecuteCommandLists
  | CommandQueue_Signal _ | GrDirectContext_wait _
  | BackendRenderTarget_setD3DResourceState _
  | SkCanvas_drawRoundRect _ _ _ | SkCanvas_drawString _ _
  | GrDirectContext_flush _ _ | GrDirectContext_submit false
  | SwapChain_Present | OutputDebugStringA _ => true
  | _ => false
  end.


(** The CPU waiting for the fence. *)
Definition fence_wait (c : NativeCall) : bool :=
  match c with
  | Fence_SetEventOnCompletion _ | WaitForSingleObject => true
  | _ => false
  end.

(** The markers of the slots. *)
Definition slot_markers (s : HelloSkiaWindow) : list Z :=
  FrameContext.mFenceValue <$> mFrames s.

(** A step that leaves the counter, the ring index and the markers of the
    slots alone. *)
Definition keeps (s s' : HelloSkiaWindow) : Prop :=
  mFenceValue s' = mFenceValue s /\
  mFrameIndex s' = mFrameIndex s /\
  slot_markers s' = slot_markers s.

Definition any (s s' : HelloSkiaWindow) : Prop := True.

(** The controller at the end of [construct] when no call fails. *)
Definition constructed (N : nat) (p : Platform) (desc : PixelSize)
  : HelloSkiaWindow :=
  {| mFrames := create_frames p desc 0 (replicate N released);
     mFrameIndex := 0%nat;
     mFenceValue := 0;
     mFrameCounter := 0;
     mWindowSize := desc;
     mPendingResize := None;
     mExitCode := None |}.



(** Work of the frame proper that is no part of applying a resize, and the
    other way round. *)
Definition rendering (c : NativeCall) : bool :=
  frame_call c && negb (resize_call c).

Definition resizing (c : NativeCall) : bool :=
  resize_call c && negb (frame_call c).

(** The size a [WM_SIZE] message carries. *)
Definition size_of (msg : MSG) : PixelSize :=
  {| mWidth := LOWORD (lParam msg); mHeight := HIWORD (lParam msg) |}.

(** A step that leaves the counter alone. *)
Definition same_counter (s s' : HelloSkiaWindow) : Prop :=
  mFenceValue s' = mFenceValue s.





(** ** Reading what the window system delivers *)

Definition closes (d : Delivery) : bool :=
  match d with
  | Sent msg | Posted msg true => message msg =? WM_CLOSE
  | Posted _ false => false
  end.

Definition quits (d : Delivery) : bool :=
  match d with
  | Posted msg _ => message msg =? WM_QUIT
  | Sent _ => false
  end.

Definition ends_loop (d : Delivery) : bool := closes d || quits d.

Definition is_present (c : NativeCall) : bool :=
  match c with SwapChain_Present => true | _ => false end.

Definition presents (l : list NativeCall) : nat :=
  length (List.filter is_present l).

(** The controller after the window procedure has seen [msg]. *)
Definition notified (msg : MSG) (s : HelloSkiaWindow) : HelloSkiaWindow :=
  if message msg =? WM_SIZE then set_mPendingResize (Some (size_of msg)) s
  else if message msg =? WM_CLOSE then set_mExitCode (Some 0) s
  else s.

Definition delivered (s : HelloSkiaWindow) (d : Delivery) : HelloSkiaWindow :=
  match d with
  | Sent msg | Posted msg true => notified msg s
  | Posted _ false => s
  end.

Definition no_present (c : NativeCall) : Prop := is_present c = false.

(** ** What a frame that goes through does *)

(** The calls of lines 406-422 on slot [i], taken in the state [frame],
    when no call fails: [a] is the marker of the non-library submission and
    [b] that of the library flush. *)
Definition frame_calls (i : nat) (frame : FrameContext) (size : PixelSize)
    (counter a b : Z) : list NativeCall :=
  (if FrameContext.mFenceValue frame =? 0 then []
   else [Fence_SetEventOnCompletion (FrameContext.mFenceValue frame);
         WaitForSingleObject]) ++
  [CommandAllocator_Reset i;
   CommandList_Reset i;
   CommandList_ResourceBarrier i;
   CommandList_ClearRenderTargetView (FrameContext.mRenderTargetView frame);
   CommandList_OMSetRenderTargets (FrameContext.mRenderTargetView frame);
   CommandList_SetDescriptorHeaps;
   CommandList_Close;
   CommandQueue_ExecuteCommandLists;
   CommandQueue_Signal a;
   GrDirectContext_wait a;
   BackendRenderTarget_setD3DResourceState i;
   SkCanvas_drawRoundRect i (to_int (mWidth size)) (to_int (mHeight size - 2));
   SkCanvas_drawString i counter;
   GrDirectContext_flush i b;
   GrDirectContext_submit false;
   SwapChain_Present].

(** The controller after such a frame. *)
Definition after_frame (SwapChainLength : nat) (s : HelloSkiaWindow)
  : HelloSkiaWindow :=
  let i := mFrameIndex s in
  let b := to_uint64 (to_uint64 (mFenceValue s + 1) + 1) in
  {| mFrames := alter (set_frame_mFenceValue b) i (mFrames s);
     mFrameIndex := ((i + 1) `mod` SwapChainLength)%nat;
     mFenceValue := b;
     mFrameCounter := to_uint64 (mFrameCounter s + 1);
     mWindowSize := mWindowSize s;
     mPendingResize := mPendingResize s;
     mExitCode := mExitCode s |}.

(** [respects Φ R m]: whatever the start, [m] only adds calls that satisfy
    [Φ] to the log and takes the controller to an [R]-related state, whether
    it returns or throws. *)
Definition respects {A} (Φ : NativeCall -> Prop)
    (R : HelloSkiaWindow -> HelloSkiaWindow -> Prop) (m : M A) : Prop :=
  forall w, exists l,
    calls (m w).2 = calls w ++ l /\ Forall Φ l /\ R (window w) (window (m w).2).

(** ** Concrete runs *)

Definition vga : PixelSize := {| mWidth := 640; mHeight := 480 |}.

(** A ring of two, just constructed on the quiet platform. *)
Definition fresh2 : World := (construct 2 quiet vga).2.

(** The same after two frames: both slots have a marker in flight. *)
Definition warm2 : World := (RenderFrames 2 quiet 2 fresh2).2.

(** A platform on which [ID3D12Fence::SetEventOnCompletion] fails and
    every other call succeeds. *)
Definition fence_event_fails : Platform :=
  {| hresult := fun _ c =>
       match c with
       | Fence_SetEventOnCompletion _ => E_FAIL
       | _ => S_OK
       end;
     clientArea := fun _ => {| mWidth := 800; mHeight := 600 |};
     indeterminate := fun _ => {| mWidth := 0; mHeight := 0 |};
     rtvStart := 4096;
     rtvStep := 32;
     frameDuration := fun _ => 0 |}.

Definition diagnostic (c : NativeCall) : bool :=
  match c with OutputDebugStringA _ => true | _ => false end.

(** [MAKELPARAM]. *)
Definition MAKELPARAM (lo hi : Z) : Z := Z.lor lo (Z.shiftl hi 16).

Definition wm_size (width height : Z) : MSG :=
  {| message := WM_SIZE; wParam := 0; lParam := MAKELPARAM width height |}.

Definition wm_close : MSG := {| message := WM_CLOSE; wParam := 0; lParam := 0 |}.

(** [warm2] with a resize to 800 x 600 pending. *)
Definition resizing2 : World :=
  (pump quiet [Sent (wm_size 800 600)] warm2).2.



(** ** More ways to read a log *)

(** A slot's surface or render target is let go. *)
Definition is_release (c : NativeCall) : bool :=
  match c with
  | SkSurface_unref _ | RenderTarget_Release _ => true
  | _ => false
  end.

(** The CPU blocks on the fence event. *)
Definition is_wait (c : NativeCall) : bool :=
  match c with WaitForSingleObject => true | _ => false end.

(** ** What a computation guards *)

(** The ring has its [SwapChainLength] slots and the index points at one
    of them. *)
Definition ring (N : nat) (s : HelloSkiaWindow) : Prop :=
  length (mFrames s) = N /\ (mFrameIndex s < N)%nat.

(** [guards I E m]: started where [I] holds, [m] ends where [I] holds,
    whether it returns or throws, and throws nothing but what [E] allows. *)
Definition guards {A} (I : HelloSkiaWindow -> Prop) (E : exception -> Prop)
    (m : M A) : Prop :=
  forall w, I (window w) ->
    I (window (m w).2) /\ forall e, (m w).1 = Throw e -> E e.

(** The exception of a failed native call, and that of a surface that is
    not there. *)
Definition native_failure (e : exception) : Prop :=
  exists hr, e = system_error hr /\ hr < 0.

Definition failure_or_null (e : exception) : Prop :=
  native_failure e \/ e = null_pointer.

(** The exit code is the one the class starts with, or the 0 of
    [WM_CLOSE]. *)
Definition unset_or_zero (s : HelloSkiaWindow) : Prop :=
  mExitCode s = None \/ mExitCode s = Some 0.

(** ** [CreateNativeWindow]: the extent asked of [CreateWindowExW] *)

(** [screenHeight / 2] and [(height * 2) / 3] on [int]: the division
    truncates towards zero. *)
Definition initial_height (screenHeight : Z) : Z := Z.quot screenHeight 2.

Definition initial_width (screenHeight : Z) : Z :=
  Z.quot (initial_height screenHeight * 2) 3.

(** A platform on which [IDXGISwapChain1::GetDesc1] fails and every other
    call succeeds; the memory of an uninitialised local is filled with
    0xCC. *)
Definition desc_query_fails : Platform :=
  {| hresult := fun _ c =>
       match c with
       | SwapChain_GetDesc1 => E_FAIL
       | _ => S_OK
       end;
     clientArea := fun _ => {| mWidth := 800; mHeight := 600 |};
     indeterminate := fun _ => {| mWidth := 3435973836; mHeight := 3435973836 |};
     rtvStart := 4096;
     rtvStep := 32;
     frameDuration := fun _ => 0 |}.

(** [WM_QUIT] as [PostQuitMessage (7)] posts it. *)
Definition wm_quit : MSG := {| message := WM_QUIT; wParam := 7; lParam := 0 |}.

(** * Proofs *)

Lemma alter_set_frame_mFenceValue (a b : Z) (i : nat) (l : list FrameContext) :
  alter (set_frame_mFenceValue b) i (alter (set_frame_mFenceValue a) i l)
  = alter (set_frame_mFenceValue b) i l.
Proof.
  rewrite list_alter_alter_eq. apply list_alter_ext; [|done].
  by intros [] _.
Qed.

(** ** Reasoning about computations *)

(** Unfolds the program down to functions on worlds. *)
Ltac unfold_cpp :=
  unfold RenderFrame, apply_pending_resize, render_on_next_slot,
    RenderNonSkiaContent, RenderSkiaContent, RenderSkiaContent_canvas,
    CleanupFrameContexts, create_render_target, release_frame, WindowProc,
    GetDesc1, uninitialised, ResizeBuffers, pace,
    checked, CheckHResult, call_, call, update_frame, next_mFenceValue,
    modify, at_frame, bind, get, put, ret, throw in *.

(** Brings nested appends to one right-nested list. *)
Ltac list_normal :=
  repeat (progress (simpl; rewrite <- ?app_assoc)).

Lemma emitted_app (w w' : World) (l : list NativeCall) :
  calls w' = calls w ++ l -> emitted w w' = l.
Proof. unfold emitted. intros ->. by rewrite drop_app_length. Qed.

Lemma emitted_refl (w : World) : emitted w w = [].
Proof. apply emitted_app. by rewrite app_nil_r. Qed.

Section Respects.

Context (Φ : NativeCall -> Prop).
Context (R : HelloSkiaWindow -> HelloSkiaWindow -> Prop).
Context `{!Reflexive R, !Transitive R}.

Lemma respects_ret {A} (a : A) : respects Φ R (ret a).
Proof. intros w. exists []. simpl. by rewrite app_nil_r. Qed.

Lemma respects_throw {A} (e : exception) : respects Φ R (@throw A e).
Proof. intros w. exists []. simpl. by rewrite app_nil_r. Qed.

Lemma respects_get : respects Φ R get.
Proof. intros w. exists []. simpl. by rewrite app_nil_r. Qed.

Lemma respects_bind {A B} (m : M A) (k : A -> M B) :
  respects Φ R m -> (forall a, respects Φ R (k a)) -> respects Φ R (bind m k).
Proof.
  intros Hm Hk w. unfold bind.
  destruct (Hm w) as (l1 & E1 & F1 & R1).
  destruct (m w) as [[a|e] w1]; simpl in *.
  - destruct (Hk a w1) as (l2 & E2 & F2 & R2).
    exists (l1 ++ l2). rewrite E2, E1, app_assoc.
    split_and!; [done|by apply Forall_app|by etrans].
  - by exists l1.
Qed.

Lemma respects_put (s : HelloSkiaWindow) :
  (forall s0, R s0 s) -> respects Φ R (put s).
Proof. intros H w. exists []. simpl. by rewrite app_nil_r. Qed.

Lemma respects_modify (f : HelloSkiaWindow -> HelloSkiaWindow) :
  (forall s, R s (f s)) -> respects Φ R (modify f).
Proof. intros H w. exists []. simpl. by rewrite app_nil_r. Qed.

Lemma respects_update_frame (i : nat) (f : FrameContext -> FrameContext) :
  (forall s, R s (set_mFrames (alter f i (mFrames s)) s)) ->
  respects Φ R (update_frame i f).
Proof. intros H. by apply respects_modify. Qed.

Lemma respects_call (p : Platform) (c : NativeCall) :
  Φ c -> respects Φ R (call p c).
Proof. intros H w. exists [c]. simpl. split_and!; [done|by constructor|done]. Qed.

Lemma respects_call_ (p : Platform) (c : NativeCall) :
  Φ c -> respects Φ R (call_ p c).
Proof.
  intros H. apply respects_bind; [by apply respects_call|].
  intros _. apply respects_ret.
Qed.

Lemma respects_CheckHResult (p : Platform) (hr : HRESULT) :
  (forall hr', Φ (OutputDebugStringA hr')) -> respects Φ R (CheckHResult p hr).
Proof.
  intros H. unfold CheckHResult. destruct (SUCCEEDED hr).
  - apply respects_ret.
  - apply respects_bind; [by apply respects_call_|].
    intros _. apply respects_throw.
Qed.

Lemma respects_checked (p : Platform) (c : NativeCall) :
  Φ c -> (forall hr', Φ (OutputDebugStringA hr')) ->
  respects Φ R (checked p c).
Proof.
  intros H H'. apply respects_bind; [by apply respects_call|].
  intros hr. by apply respects_CheckHResult.
Qed.

Lemma respects_for_each {A} (l : list A) (body : A -> M unit) :
  (forall x, respects Φ R (body x)) -> respects Φ R (for_each l body).
Proof.
  intros H. induction l as [|x l IH]; simpl.
  - apply respects_ret.
  - apply respects_bind; [apply H|]. intros _. apply IH.
Qed.

End Respects.

Lemma respects_weaken {A} (Φ Ψ : NativeCall -> Prop)
    (R T : HelloSkiaWindow -> HelloSkiaWindow -> Prop) (m : M A) :
  (forall c, Φ c -> Ψ c) -> (forall s s', R s s' -> T s s') ->
  respects Φ R m -> respects Ψ T m.
Proof.
  intros HΦ HR H w. destruct (H w) as (l & E & F & r).
  exists l. split_and!; [done| |by apply HR].
  eapply Forall_impl; [exact F|done].
Qed.

(** Every computation only ever appends to the log. *)
Lemma respects_emitted {A} (Φ : NativeCall -> Prop)
    (R : HelloSkiaWindow -> HelloSkiaWindow -> Prop) (m : M A) (w : World) :
  respects Φ R m ->
  calls (m w).2 = calls w ++ emitted w (m w).2 /\
  Forall Φ (emitted w (m w).2) /\ R (window w) (window (m w).2).
Proof.
  intros H. destruct (H w) as (l & E & F & r).
  by rewrite (emitted_app _ _ _ E).
Qed.

Lemma render_on_next_slot_succeeds (N : nat) (p : Platform) (w : World)
    (frame : FrameContext) :
  succeeds p ->
  mFrames (window w) !! mFrameIndex (window w) = Some frame ->
  held (FrameContext.mSkSurface frame) = true ->
  render_on_next_slot N p w =
    (Return tt,
     {| window := after_frame N (window w);
        swapChainDesc := swapChainDesc w;
        calls := calls w ++
          frame_calls (mFrameIndex (window w)) frame (mWindowSize (window w))
            (to_uint64 (mFrameCounter (window w) + 1))
            (to_uint64 (mFenceValue (window w) + 1))
            (to_uint64 (to_uint64 (mFenceValue (window w) + 1) + 1)) |}).
Proof.
  intros Hp Hi Hs.
  destruct w as [[frames i fv fc ws pr ec] desc log].
  destruct frame as [rt view sf m]. simpl in *.
  destruct sf as [sf|]; [|done].
  unfold frame_calls. unfold_cpp.
  simpl. rewrite Hi. simpl.
  destruct (m =? 0);
    repeat (progress (simpl; rewrite ?list_lookup_alter_eq, ?Hi, ?Hp)).
  all: unfold after_frame; simpl; rewrite <- ?app_assoc; simpl.
  all: by rewrite alter_set_frame_mFenceValue.
Qed.

(** ** The loops over the slots *)

Lemma release_frame_spec (p : Platform) (w : World) (i : nat)
    (f : FrameContext) :
  mFrames (window w) !! i = Some f ->
  release_frame p i w =
    (Return tt,
     {| window := set_mFrames (<[i:=released]> (mFrames (window w))) (window w);
        swapChainDesc := swapChainDesc w;
        calls := calls w ++ release_calls i [f] |}).
Proof.
  intros Hi. destruct w as [s desc log]. destruct f as [rt view sf m].
  simpl in *. unfold_cpp. simpl. rewrite Hi. simpl.
  assert (E : forall fs : list FrameContext,
    alter (set_frame_mFenceValue 0) i
      (alter (set_frame_mRenderTargetView 0) i
         (alter (set_frame_mRenderTarget None) i
            (alter (set_frame_mSkSurface None) i fs)))
    = <[i:=released]> fs).
  { intros fs. rewrite !list_alter_alter_eq, list_insert_alter.
    apply list_alter_ext; [|done]. by intros [] _. }
  destruct sf, rt; simpl; rewrite E, <- ?app_assoc, ?app_nil_r; reflexivity.
Qed.

Lemma release_loop (p : Platform) (rest done : list FrameContext)
    (s : HelloSkiaWindow) (desc : PixelSize) (log : list NativeCall) :
  for_each (seq (length done) (length rest)) (release_frame p)
    {| window := set_mFrames (done ++ rest) s;
       swapChainDesc := desc; calls := log |} =
  (Return tt,
   {| window := set_mFrames (done ++ replicate (length rest) released) s;
      swapChainDesc := desc;
      calls := log ++ release_calls (length done) rest |}).
Proof.
  revert done log. induction rest as [|f rest IH]; intros done log.
  - simpl. unfold ret. by rewrite !app_nil_r.
  - simpl. unfold bind at 1.
    erewrite release_frame_spec by (simpl; apply list_lookup_middle; done).
    simpl. rewrite (insert_app_r_alt done (f :: rest)) by done.
    rewrite Nat.sub_diag. simpl.
    specialize (IH (done ++ [released])
      (log ++ (if held (FrameContext.mSkSurface f)
               then [SkSurface_unref (length done)] else []) ++
              (if held (FrameContext.mRenderTarget f)
               then [RenderTarget_Release (length done)] else []) ++ [])).
    rewrite length_app, Nat.add_1_r in IH. simpl in IH.
    rewrite <- !app_assoc in IH. simpl in IH.
    unfold set_mFrames in *. simpl in *. by rewrite IH.
Qed.

Lemma create_render_target_succeeds (p : Platform) (w : World) (i : nat)
    (f : FrameContext) :
  succeeds p ->
  mFrames (window w) !! i = Some f ->
  create_render_target p i w =
    (Return tt,
     {| window :=
          set_mFrames (<[i:=created p (swapChainDesc w) i f]> (mFrames (window w)))
            (window w);
        swapChainDesc := swapChainDesc w;
        calls := calls w ++ create_calls p (swapChainDesc w) i [f] |}).
Proof.
  intros Hp Hi. destruct w as [s desc log]. destruct f as [rt view sf m].
  simpl in *. unfold_cpp. simpl. rewrite Hi. simpl.
  assert (E : forall fs : list FrameContext,
    alter (set_frame_mSkSurface (Some (surface_of desc))) i
      (alter (set_frame_mRenderTargetView (rtv p i)) i
         (alter (set_frame_mRenderTarget (Some i)) i
            (alter (set_frame_mRenderTarget None) i fs)))
    = alter (created p desc i) i fs).
  { intros fs. rewrite !list_alter_alter_eq.
    apply list_alter_ext; [|done]. by intros [] _. }
  assert (E' : <[i:=created p desc i
                     {| FrameContext.mRenderTarget := rt;
                        FrameContext.mRenderTargetView := view;
                        FrameContext.mSkSurface := sf;
                        FrameContext.mFenceValue := m |}]> (mFrames s)
               = alter (created p desc i) i (mFrames s)).
  { rewrite list_insert_alter. apply list_alter_ext; [|done].
    intros x Hx. rewrite Hi in Hx. by injection Hx as <-. }
  rewrite E'. clear E'.
  destruct rt; repeat (progress (simpl; rewrite ?Hp)).
  all: fold (rtv p i); fold (surface_of desc); rewrite E.
  all: rewrite <- ?app_assoc; reflexivity.
Qed.

Lemma create_loop (p : Platform) (rest done : list FrameContext)
    (s : HelloSkiaWindow) (desc : PixelSize) (log : list NativeCall) :
  succeeds p ->
  for_each (seq (length done) (length rest)) (create_render_target p)
    {| window := set_mFrames (done ++ rest) s;
       swapChainDesc := desc; calls := log |} =
  (Return tt,
   {| window :=
        set_mFrames (done ++ create_frames p desc (length done) rest) s;
      swapChainDesc := desc;
      calls := log ++ create_calls p desc (length done) rest |}).
Proof.
  intros Hp. revert done log. induction rest as [|f rest IH]; intros done log.
  - simpl. unfold ret. by rewrite !app_nil_r.
  - simpl. unfold bind at 1.
    erewrite create_render_target_succeeds
      by (try done; simpl; apply list_lookup_middle; done).
    simpl. rewrite (insert_app_r_alt done (f :: rest)) by done.
    rewrite Nat.sub_diag. simpl.
    specialize (IH (done ++ [created p desc (length done) f])
      (log ++ create_calls p desc (length done) [f])).
    rewrite length_app, Nat.add_1_r in IH. simpl in IH.
    rewrite <- !app_assoc in IH. simpl in IH.
    unfold set_mFrames in *. simpl in *. rewrite <- ?app_assoc. simpl.
    by rewrite IH.
Qed.

(** ** [CleanupFrameContexts], whatever the platform answers *)

Lemma CleanupFrameContexts_cases (p : Platform) (w : World) :
  let v := to_uint64 (mFenceValue (window w) + 1) in
  let n := length (calls w) in
  let hr1 := hresult p (n + 1) (CommandQueue_Signal v) in
  let hr2 := hresult p (n + 2) (Fence_SetEventOnCompletion v) in
  CleanupFrameContexts p w =
    if SUCCEEDED hr1 then
      if SUCCEEDED hr2 then
        (Return tt,
         {| window := quiesced (window w);
            swapChainDesc := swapChainDesc w;
            calls := calls w ++ quiesce_calls (window w) |})
      else
        (Throw (system_error hr2),
         {| window := set_mFenceValue v (window w);
            swapChainDesc := swapChainDesc w;
            calls := calls w ++
              [GrDirectContext_flushAndSubmit true; CommandQueue_Signal v;
               Fence_SetEventOnCompletion v; OutputDebugStringA hr2] |})
    else
      (Throw (system_error hr1),
       {| window := set_mFenceValue v (window w);
          swapChainDesc := swapChainDesc w;
          calls := calls w ++
            [GrDirectContext_flushAndSubmit true; CommandQueue_Signal v;
             OutputDebugStringA hr1] |}).
Proof.
  destruct w as [s desc log]. simpl.
  unfold CleanupFrameContexts, checked, CheckHResult, call_, call,
    next_mFenceValue, modify, bind, get, put, ret, throw.
  simpl. rewrite ?length_app. simpl.
  destruct (SUCCEEDED (hresult p (length log + 1) _)); simpl;
    [|rewrite <- ?app_assoc; reflexivity].
  rewrite <- ?app_assoc, ?length_app. simpl.
  destruct (SUCCEEDED (hresult p (length log + 2) _)); simpl;
    [|rewrite <- ?app_assoc; reflexivity].
  pose proof (release_loop p (mFrames s) []
                (set_mFenceValue (to_uint64 (mFenceValue s + 1)) s) desc) as L.
  simpl in L. unfold set_mFrames, set_mFenceValue in *. simpl in *.
  destruct s as [frames i fv fc ws pr ec]. simpl in *.
  rewrite L. simpl. unfold quiesced, quiesce_calls. simpl.
  by rewrite <- !app_assoc.
Qed.

Lemma CleanupFrameContexts_succeeds (p : Platform) (w : World) :
  succeeds p ->
  CleanupFrameContexts p w =
    (Return tt,
     {| window := quiesced (window w);
        swapChainDesc := swapChainDesc w;
        calls := calls w ++ quiesce_calls (window w) |}).
Proof. intros Hp. rewrite CleanupFrameContexts_cases. simpl. by rewrite !Hp. Qed.

Lemma CleanupFrameContexts_returns (p : Platform) (w w' : World) :
  CleanupFrameContexts p w = (Return tt, w') ->
  w' = {| window := quiesced (window w);
          swapChainDesc := swapChainDesc w;
          calls := calls w ++ quiesce_calls (window w) |}.
Proof.
  rewrite CleanupFrameContexts_cases. simpl.
  repeat case_match; congruence.
Qed.

Lemma CreateRenderTargets_succeeds (N : nat) (p : Platform) (w : World) :
  succeeds p ->
  length (mFrames (window w)) = N ->
  CreateRenderTargets N p w =
    (Return tt,
     {| window :=
          set_mFrames (create_frames p (swapChainDesc w) 0 (mFrames (window w)))
            (window w);
        swapChainDesc := swapChainDesc w;
        calls := calls w ++ create_calls p (swapChainDesc w) 0 (mFrames (window w)) |}).
Proof.
  intros Hp <-. destruct w as [s desc log]. simpl.
  pose proof (create_loop p (mFrames s) [] s desc log Hp) as L.
  simpl in L. unfold CreateRenderTargets. rewrite <- L.
  f_equal. by destruct s.
Qed.

(** ** [RenderFrame] when no call fails *)

Lemma apply_pending_resize_succeeds (N : nat) (p : Platform) (w : World)
    (size : PixelSize) :
  succeeds p ->
  length (mFrames (window w)) = N ->
  mPendingResize (window w) = Some size ->
  apply_pending_resize N p w =
    (Return tt,
     {| window := after_resize p (new_desc p w size) size (window w);
        swapChainDesc := new_desc p w size;
        calls := calls w ++ resize_calls p (new_desc p w size) size (window w) |}).
Proof.
  intros Hp HN Hsize. unfold apply_pending_resize.
  unfold bind at 1. unfold get at 1. rewrite Hsize.
  unfold bind at 1. rewrite (CleanupFrameContexts_succeeds p w Hp).
  unfold bind at 1. unfold ResizeBuffers at 1. simpl.
  unfold bind at 1. unfold CheckHResult at 1. rewrite Hp. unfold ret at 1.
  unfold bind at 1.
  rewrite (CreateRenderTargets_succeeds N p _ Hp)
    by (simpl; by rewrite length_replicate).
  simpl. unfold modify, bind, get, put. simpl.
  unfold new_desc, resized, resize_calls, after_resize. simpl.
  by rewrite <- !app_assoc.
Qed.

Lemma RenderFrame_no_pending (N : nat) (p : Platform) (w : World) :
  mPendingResize (window w) = None ->
  RenderFrame N p w = render_on_next_slot N p w.
Proof.
  intros H. unfold RenderFrame, apply_pending_resize.
  unfold bind at 1. unfold bind at 1. unfold get at 1. by rewrite H.
Qed.

Lemma RenderFrame_succeeds (N : nat) (p : Platform) (w : World)
    (frame : FrameContext) :
  succeeds p ->
  mPendingResize (window w) = None ->
  mFrames (window w) !! mFrameIndex (window w) = Some frame ->
  held (FrameContext.mSkSurface frame) = true ->
  RenderFrame N p w =
    (Return tt,
     {| window := after_frame N (window w);
        swapChainDesc := swapChainDesc w;
        calls := calls w ++
          frame_calls (mFrameIndex (window w)) frame (mWindowSize (window w))
            (to_uint64 (mFrameCounter (window w) + 1))
            (to_uint64 (mFenceValue (window w) + 1))
            (to_uint64 (to_uint64 (mFenceValue (window w) + 1) + 1)) |}).
Proof.
  intros Hp Hnone Hi Hs. rewrite RenderFrame_no_pending by done.
  by apply render_on_next_slot_succeeds.
Qed.

Lemma RenderFrame_resize_succeeds (N : nat) (p : Platform) (w : World)
    (size : PixelSize) :
  succeeds p ->
  (0 < N)%nat ->
  length (mFrames (window w)) = N ->
  mPendingResize (window w) = Some size ->
  let desc := new_desc p w size in
  let s1 := after_resize p desc size (window w) in
  RenderFrame N p w =
    (Return tt,
     {| window := after_frame N s1;
        swapChainDesc := desc;
        calls := calls w ++
          resize_calls p desc size (window w) ++
          frame_calls 0 (created p desc 0 released) size
            (to_uint64 (mFrameCounter (window w) + 1))
            (to_uint64 (mFenceValue s1 + 1))
            (to_uint64 (to_uint64 (mFenceValue s1 + 1) + 1)) |}).
Proof.
  intros Hp HN Hlen Hsize desc s1. unfold RenderFrame.
  unfold bind at 1.
  rewrite (apply_pending_resize_succeeds N p w size Hp Hlen Hsize).
  fold desc. fold s1.
  rewrite (render_on_next_slot_succeeds N p _ (created p desc 0 released) Hp).
  - unfold resize_calls, quiesce_calls. by list_normal.
  - simpl. rewrite Hlen. destruct N; [lia|done].
  - done.
Qed.

Lemma ready_after_frame (N : nat) (s : HelloSkiaWindow) :
  ready N s -> ready N (after_frame N s).
Proof.
  intros (Hlen & Hi & Hs). unfold ready, after_frame. simpl.
  split_and!.
  - by rewrite length_alter.
  - apply Nat.mod_upper_bound. lia.
  - apply Forall_alter; [done|]. by intros [].
Qed.

Lemma ready_lookup (N : nat) (s : HelloSkiaWindow) :
  ready N s ->
  exists frame,
    mFrames s !! mFrameIndex s = Some frame /\
    held (FrameContext.mSkSurface frame) = true.
Proof.
  intros (Hlen & Hi & Hs).
  destruct (lookup_lt_is_Some_2 (mFrames s) (mFrameIndex s)) as [frame Hf];
    [lia|].
  exists frame. split; [done|].
  by eapply (proj1 (Forall_lookup _ _) Hs).
Qed.

Lemma ready_after_resize (N : nat) (p : Platform) (desc size : PixelSize)
    (s : HelloSkiaWindow) :
  (0 < N)%nat -> length (mFrames s) = N -> ready N (after_resize p desc size s).
Proof.
  intros HN Hlen. unfold ready, after_resize. simpl. rewrite Hlen.
  assert (G : forall i l,
    length (create_frames p desc i l) = length l /\
    Forall (fun f => held (FrameContext.mSkSurface f) = true)
      (create_frames p desc i l)).
  { intros i l. revert i. induction l as [|f l IH]; intros i; simpl.
    - by split.
    - destruct (IH (S i)) as [-> F]. split; [done|]. by constructor. }
  destruct (G 0%nat (replicate N released)) as [-> F].
  by rewrite length_replicate.
Qed.

(** A frame on a ready controller with nothing pending. *)
Lemma RenderFrame_ready (N : nat) (p : Platform) (w : World) :
  succeeds p ->
  ready N (window w) ->
  mPendingResize (window w) = None ->
  exists frame w',
    mFrames (window w) !! mFrameIndex (window w) = Some frame /\
    RenderFrame N p w = (Return tt, w') /\
    window w' = after_frame N (window w) /\
    swapChainDesc w' = swapChainDesc w /\
    calls w' = calls w ++
      frame_calls (mFrameIndex (window w)) frame (mWindowSize (window w))
        (to_uint64 (mFrameCounter (window w) + 1))
        (to_uint64 (mFenceValue (window w) + 1))
        (to_uint64 (to_uint64 (mFenceValue (window w) + 1) + 1)).
Proof.
  intros Hp Hr Hnone. destruct (ready_lookup N _ Hr) as (frame & Hf & Hs).
  eexists frame, _. split; [done|].
  split; [by apply RenderFrame_succeeds|]. done.
Qed.

Lemma visited_frame_calls (i : nat) (frame : FrameContext) (size : PixelSize)
    (counter a b : Z) :
  slots_of (frame_calls i frame size counter a b) = [i].
Proof. unfold frame_calls. by destruct (_ =? 0). Qed.

Lemma submission_frame_calls (i : nat) (frame : FrameContext)
    (size : PixelSize) (counter a b : Z) :
  submissions_of (frame_calls i frame size counter a b)
  = [(NonLibrary, a); (Library, b)].
Proof. unfold frame_calls. by destruct (_ =? 0). Qed.


Lemma round_robin_seq (N : nat) (k i : nat) :
  (0 < N)%nat ->
  round_robin N (i `mod` N) k = (fun j => (i + j) `mod` N)%nat <$> seq 0 k.
Proof.
  intros HN. revert i. induction k as [|k IH]; intros i; [done|].
  simpl. rewrite Nat.add_0_r. f_equal.
  rewrite <- fmap_S_seq, <- list_fmap_compose.
  rewrite Nat.Div0.add_mod_idemp_l. rewrite (IH (i + 1)%nat).
  apply list_fmap_ext. intros _ j _. simpl. f_equal. lia.
Qed.

Lemma to_uint64_add_l (a b : Z) :
  to_uint64 (to_uint64 a + b) = to_uint64 (a + b).
Proof. unfold to_uint64. by rewrite Zplus_mod_idemp_l. Qed.

Lemma to_uint64_succ_succ (c : Z) :
  to_uint64 (to_uint64 (c + 1) + 1) = to_uint64 (c + 2).
Proof.
  unfold to_uint64. rewrite Zplus_mod_idemp_l. f_equal. lia.
Qed.

(** [k] frames in a row on a ready controller with nothing pending. *)
Lemma RenderFrames_ready (N : nat) (p : Platform) (k : nat) (w : World) :
  succeeds p ->
  ready N (window w) ->
  mPendingResize (window w) = None ->
  exists w',
    RenderFrames N p k w = (Return tt, w') /\
    ready N (window w') /\
    mPendingResize (window w') = None /\
    mExitCode (window w') = mExitCode (window w) /\
    calls w' = calls w ++ concat (frame_logs N p k w) /\
    length (frame_logs N p k w) = k /\
    slots_of <$> frame_logs N p k w
      = (fun i => [i]) <$> round_robin N (mFrameIndex (window w)) k /\
    submissions_of <$> frame_logs N p k w
      = markers (mFenceValue (window w)) k /\
    to_uint64 (mFenceValue (window w'))
      = to_uint64 (mFenceValue (window w) + 2 * Z.of_nat k).
Proof.
  intros Hp. revert w. induction k as [|k IH]; intros w Hr Hnone.
  - exists w. simpl. rewrite app_nil_r, Z.add_0_r. by split_and!.
  - destruct (RenderFrame_ready N p w Hp Hr Hnone)
      as (frame & w1 & Hf & E1 & Hw1 & Hd1 & Hc1).
    destruct (IH w1) as (w' & E' & Hr' & Hn' & Hx' & Hc' & Hl' & Hv' & Hm' & Hfv').
    { rewrite Hw1. by apply ready_after_frame. }
    { by rewrite Hw1. }
    pose proof (emitted_app w w1 _ Hc1) as Hd. unfold emitted in Hd.
    exists w'. simpl. unfold bind at 1. rewrite E1, Hd.
    split_and!; try done.
    + by rewrite Hx', Hw1.
    + rewrite Hc', Hc1. simpl. by rewrite <- app_assoc.
    + simpl. by rewrite Hl'.
    + simpl. rewrite visited_frame_calls. unfold fmap in Hv'.
      rewrite Hv', Hw1. done.
    + simpl. rewrite submission_frame_calls. unfold fmap in Hm'.
      rewrite Hm', Hw1. done.
    + rewrite Hfv', Hw1. cbn [after_frame mFenceValue].
      rewrite to_uint64_add_l, <- Z.add_assoc, to_uint64_add_l.
      f_equal. lia.
Qed.

(** ** What each part can call, whatever the platform answers *)

#[local] Instance keeps_refl : Reflexive keeps.
Proof. by intros s. Qed.

#[local] Instance keeps_trans : Transitive keeps.
Proof.
  intros s1 s2 s3 (A1 & B1 & C1) (A2 & B2 & C2).
  split_and!; congruence.
Qed.

#[local] Instance any_refl : Reflexive any.
Proof. by intros s. Qed.

#[local] Instance any_trans : Transitive any.
Proof. by intros s1 s2 s3. Qed.

Lemma keeps_alter (i : nat) (f : FrameContext -> FrameContext)
    (s : HelloSkiaWindow) :
  (forall x, FrameContext.mFenceValue (f x) = FrameContext.mFenceValue x) ->
  keeps s (set_mFrames (alter f i (mFrames s)) s).
Proof.
  intros H. split_and!; [done..|]. unfold slot_markers. simpl.
  apply list_eq. intros j. rewrite !list_lookup_fmap.
  destruct (decide (i = j)) as [->|].
  - rewrite list_lookup_alter_eq. destruct (mFrames s !! j); simpl; [|done].
    by rewrite H.
  - by rewrite list_lookup_alter_ne.
Qed.

(** One step of a proof that a computation [respects] something: the rule
    for the construct at the head of the computation. *)
Ltac respects_step :=
  lazymatch goal with
  | |- respects _ _ (ret _) => apply respects_ret
  | |- respects _ _ (throw _) => apply respects_throw
  | |- respects _ _ get => apply respects_get
  | |- respects _ _ (call_ _ _) => apply respects_call_
  | |- respects _ _ (call _ _) => apply respects_call
  | |- respects _ _ (checked _ _) => apply respects_checked
  | |- respects _ _ (CheckHResult _ _) => apply respects_CheckHResult
  | |- respects _ _ (for_each _ _) => apply respects_for_each
  | |- respects _ _ (update_frame _ _) => apply respects_update_frame
  | |- respects _ _ (modify _) => apply respects_modify
  | |- respects _ _ (put _) => apply respects_put
  | |- respects _ _ (bind _ _) => apply respects_bind
  | |- respects _ _ (match ?x with _ => _ end) => destruct x
  end;
  try apply _;
  repeat match goal with |- forall _, _ => intro end;
  try done.

Lemma create_render_target_keeps (p : Platform) (i : nat) :
  respects (fun c => create_call c = true) keeps (create_render_target p i).
Proof.
  unfold create_render_target.
  repeat respects_step; try (by apply keeps_alter).
  - intros w. exists []. simpl. by rewrite app_nil_r.
  - intros w. exists [SwapChain_GetDesc1]. simpl.
    split_and!; [done|by repeat constructor|done].
Qed.

Lemma CreateRenderTargets_keeps (N : nat) (p : Platform) :
  respects (fun c => create_call c = true) keeps (CreateRenderTargets N p).
Proof.
  unfold CreateRenderTargets. respects_step.
  apply create_render_target_keeps.
Qed.

Lemma CleanupFrameContexts_respects (p : Platform) :
  respects (fun c => resize_call c = true) any (CleanupFrameContexts p).
Proof.
  unfold CleanupFrameContexts, release_frame, next_mFenceValue.
  repeat respects_step.
Qed.

Lemma ResizeBuffers_respects (p : Platform) (size : PixelSize) :
  respects (fun c => resize_call c = true) any (ResizeBuffers p size).
Proof.
  intros w. exists [SwapChain_ResizeBuffers (mWidth size) (mHeight size)].
  simpl. split_and!; [done|by repeat constructor|done].
Qed.

Lemma create_call_resize_call (c : NativeCall) :
  create_call c = true -> resize_call c = true.
Proof. by destruct c. Qed.

Lemma apply_pending_resize_respects (N : nat) (p : Platform) :
  respects (fun c => resize_call c = true) any (apply_pending_resize N p).
Proof.
  unfold apply_pending_resize.
  repeat respects_step.
  - apply CleanupFrameContexts_respects.
  - apply ResizeBuffers_respects.
  - eapply respects_weaken; [apply create_call_resize_call| |
      apply CreateRenderTargets_keeps]. done.
Qed.

Lemma render_on_next_slot_respects (N : nat) (p : Platform) :
  respects (fun c => frame_call c = true) any (render_on_next_slot N p).
Proof.
  unfold render_on_next_slot, RenderNonSkiaContent, RenderSkiaContent,
    RenderSkiaContent_canvas, next_mFenceValue, at_frame.
  repeat respects_step.
Qed.


(** ** The frame proper, whatever the platform answers *)









(** ** The constructed window *)

Lemma construct_succeeds (N : nat) (p : Platform) (desc : PixelSize) :
  succeeds p ->
  construct N p desc =
    (Return tt,
     {| window := constructed N p desc;
        swapChainDesc := desc;
        calls := create_calls p desc 0 (replicate N released) |}).
Proof.
  intros Hp. unfold construct, modify, get, put.
  unfold bind at 1. unfold bind at 1. simpl.
  rewrite (CreateRenderTargets_succeeds N p _ Hp)
    by (simpl; by rewrite length_replicate).
  done.
Qed.

Lemma length_create_frames (p : Platform) (desc : PixelSize) (i : nat)
    (l : list FrameContext) :
  length (create_frames p desc i l) = length l.
Proof. revert i. induction l as [|f l IH]; intros i; simpl; [done|by rewrite IH]. Qed.

Lemma held_create_frames (p : Platform) (desc : PixelSize) (i : nat)
    (l : list FrameContext) :
  Forall (fun f => held (FrameContext.mSkSurface f) = true)
    (create_frames p desc i l).
Proof. revert i. induction l as [|f l IH]; intros i; simpl; by constructor. Qed.

Lemma markers_create_frames (p : Platform) (desc : PixelSize) (i : nat)
    (l : list FrameContext) :
  FrameContext.mFenceValue <$> create_frames p desc i l
  = FrameContext.mFenceValue <$> l.
Proof. revert i. induction l as [|f l IH]; intros i; simpl; [done|by rewrite IH]. Qed.

Lemma ready_constructed (N : nat) (p : Platform) (desc : PixelSize) :
  (0 < N)%nat -> ready N (constructed N p desc).
Proof.
  intros HN. unfold ready, constructed. simpl.
  rewrite length_create_frames, length_replicate.
  split_and!; [done|done|apply held_create_frames].
Qed.

Lemma slots_of_concat (ls : list (list NativeCall)) :
  slots_of (concat ls) = concat (slots_of <$> ls).
Proof.
  induction ls as [|l ls IH]; [done|]. simpl.
  unfold slots_of in *. by rewrite omap_app, IH.
Qed.

Lemma markers_of_concat (ls : list (list NativeCall)) :
  markers_of (concat ls) = concat (markers_of <$> ls).
Proof.
  induction ls as [|l ls IH]; [done|]. simpl.
  unfold markers_of in *. by rewrite omap_app, IH.
Qed.

Lemma concat_singletons {A} (l : list A) :
  concat ((fun i => [i]) <$> l) = l.
Proof. induction l as [|x l IH]; [done|]. simpl. by f_equal. Qed.

Lemma markers_of_submissions (l : list NativeCall) :
  markers_of l = snd <$> submissions_of l.
Proof.
  induction l as [|c l IH]; [done|].
  unfold markers_of, submissions_of in *.
  destruct c; csimpl; rewrite ?fmap_cons, ?IH; done.
Qed.

(** ** The alphabets of the specification lists *)

Lemma Forall_release_calls (P : NativeCall -> Prop) (i : nat)
    (l : list FrameContext) :
  (forall j, P (SkSurface_unref j)) ->
  (forall j, P (RenderTarget_Release j)) ->
  Forall P (release_calls i l).
Proof.
  intros H1 H2. revert i. induction l as [|f l IH]; intros i; simpl.
  - constructor.
  - repeat (apply Forall_app; split); [| |apply IH].
    + destruct (held _); by repeat constructor.
    + destruct (held _); by repeat constructor.
Qed.

Lemma Forall_create_calls (P : NativeCall -> Prop) (p : Platform)
    (desc : PixelSize) (i : nat) (l : list FrameContext) :
  (forall c, create_call c = true -> P c) ->
  Forall P (create_calls p desc i l).
Proof.
  intros H. revert i. induction l as [|f l IH]; intros i; simpl.
  - constructor.
  - apply Forall_app; split.
    + destruct (held _); repeat constructor. by apply H.
    + repeat (constructor; [by apply H|]). apply IH.
Qed.


Lemma Forall_quiesce_calls (P : NativeCall -> Prop) (s : HelloSkiaWindow) :
  (forall c, quiesce_call c = true -> P c) ->
  Forall P (quiesce_calls s).
Proof.
  intros H. unfold quiesce_calls. apply Forall_app; split.
  - repeat (constructor; [by apply H|]). constructor.
  - apply Forall_release_calls; intros j; by apply H.
Qed.


Lemma filter_nil_Forall {A} (f : A -> bool) (l : list A) :
  Forall (fun x => f x = false) l -> List.filter f l = [].
Proof. induction 1 as [|x l Hx _ IH]; [done|]. simpl. by rewrite Hx. Qed.

(** A call that cannot be in the first part of a log is in the second. *)
Lemma split_in_second {A} (P : A -> Prop) (l1 l2 pre post : list A) (c : A) :
  Forall P l1 -> ~ P c ->
  l1 ++ l2 = pre ++ c :: post ->
  exists pre', l2 = pre' ++ c :: post.
Proof.
  intros H1 Hc. revert pre. induction H1 as [|x l1 Hx H1 IH]; intros pre E.
  - by exists pre.
  - destruct pre as [|y pre]; simplify_eq/=; [done|]. by eapply IH.
Qed.

(** The log of [RenderFrame] is what applying the resize called, followed
    by what the frame proper called. *)
Lemma RenderFrame_two_parts (N : nat) (p : Platform) (w : World) :
  exists l1 l2,
    emitted w (RenderFrame N p w).2 = l1 ++ l2 /\
    Forall (fun c => resize_call c = true) l1 /\
    Forall (fun c => frame_call c = true) l2.
Proof.
  destruct (respects_emitted _ _ (apply_pending_resize N p) w
              (apply_pending_resize_respects N p)) as (Hc1 & Hl1 & _).
  unfold RenderFrame, bind.
  destruct (apply_pending_resize N p w) as [[[]|e] w1]; simpl in *.
  - destruct (respects_emitted _ _ (render_on_next_slot N p) w1
                (render_on_next_slot_respects N p)) as (Hc2 & Hl2 & _).
    exists (emitted w w1), (emitted w1 (render_on_next_slot N p w1).2).
    split; [|done]. apply emitted_app. rewrite Hc2. rewrite Hc1 at 1.
    by rewrite app_assoc.
  - exists (emitted w w1), []. by rewrite app_nil_r.
Qed.

(** ** The markers, whatever the platform answers *)


#[local] Instance same_counter_refl : Reflexive same_counter.
Proof. by intros s. Qed.

#[local] Instance same_counter_trans : Transitive same_counter.
Proof. unfold same_counter. intros s1 s2 s3 H1 H2. congruence. Qed.





Lemma bind_unfold {A B} (m : M A) (k : A -> M B) (w : World) :
  bind m k w =
    match m w with
    | (Return a, w') => k a w'
    | (Throw e, w') => (Throw e, w')
    end.
Proof. reflexivity. Qed.









Lemma RenderFrame_respects (N : nat) (p : Platform) :
  respects (fun _ => True) any (RenderFrame N p).
Proof.
  unfold RenderFrame. apply respects_bind; [apply _..| |intros _].
  - eapply respects_weaken; [| |apply apply_pending_resize_respects]; done.
  - eapply respects_weaken; [| |apply render_on_next_slot_respects]; done.
Qed.




(** ** The message pump and the loop *)

Lemma WindowProc_spec (p : Platform) (msg : MSG) (w : World) :
  exists r l,
    WindowProc p msg w =
      (Return r,
       {| window := notified msg (window w);
          swapChainDesc := swapChainDesc w;
          calls := calls w ++ l |}) /\
    presents l = 0%nat.
Proof.
  destruct w as [s desc log]. unfold WindowProc, notified. simpl.
  destruct (message msg =? WM_SIZE).
  - exists 0, []. unfold bind, modify, get, put, ret, bind. simpl.
    by rewrite app_nil_r.
  - destruct (message msg =? WM_CLOSE).
    + eexists _, [_]. unfold bind, modify, get, put, ret, bind, call. simpl.
      split; reflexivity.
    + eexists _, [_]. unfold bind, modify, get, put, ret, bind, call. simpl.
      split; reflexivity.
Qed.

Lemma presents_app (l1 l2 : list NativeCall) :
  presents (l1 ++ l2) = (presents l1 + presents l2)%nat.
Proof. unfold presents. by rewrite List.filter_app, length_app. Qed.

Ltac pump_simpl :=
  repeat (progress (rewrite ?bind_unfold; unfold call_, call, ret, get;
                    cbv beta iota; cbn [window swapChainDesc calls])).

(** The pump over a batch from which no [WM_QUIT] is taken. *)
Lemma pump_no_quit (p : Platform) (batch : list Delivery) (w : World) :
  forallb (fun d => negb (quits d)) batch = true ->
  exists l,
    pump p batch w =
      (Return None,
       {| window := foldl delivered (window w) batch;
          swapChainDesc := swapChainDesc w;
          calls := calls w ++ l |}) /\
    presents l = 0%nat.
Proof.
  revert w. induction batch as [|d batch IH]; intros w Hq.
  - exists []. simpl. unfold ret. rewrite app_nil_r. by destruct w.
  - simpl in Hq. apply andb_prop in Hq as [Hd Hq]. apply negb_true_iff in Hd.
    destruct d as [msg|msg [|]]; simpl pump; simpl in Hd; pump_simpl.
    + destruct (WindowProc_spec p msg w) as (r & l0 & -> & Hl0). pump_simpl.
      match goal with |- context [pump p batch ?w1] =>
        destruct (IH w1 Hq) as (l & -> & Hl) end.
      exists (l0 ++ l). rewrite presents_app, Hl0, Hl, app_assoc. done.
    + match goal with |- context [WindowProc p msg ?w0] =>
        destruct (WindowProc_spec p msg w0) as (r & l0 & -> & Hl0) end.
      pump_simpl. rewrite Hd.
      match goal with |- context [pump p batch ?w1] =>
        destruct (IH w1 Hq) as (l & -> & Hl) end.
      exists ([TranslateMessage msg] ++ l0 ++ l).
      rewrite !presents_app, Hl0, Hl. cbn [window swapChainDesc calls].
      by rewrite <- !app_assoc.
    + rewrite Hd.
      match goal with |- context [pump p batch ?w1] =>
        destruct (IH w1 Hq) as (l & -> & Hl) end.
      exists ([TranslateMessage msg] ++ l).
      rewrite !presents_app, Hl. cbn [window swapChainDesc calls].
      by rewrite <- !app_assoc.
Qed.

(** The pump up to the first [WM_QUIT] it takes off the queue. *)
Lemma pump_quit (p : Platform) (before after : list Delivery) (msg : MSG)
    (hwnd : bool) (w : World) :
  forallb (fun d => negb (quits d)) before = true ->
  message msg = WM_QUIT ->
  exists l,
    pump p (before ++ Posted msg hwnd :: after) w =
      (Return
         (Some (default 0 (mExitCode (foldl delivered (window w)
                                        (before ++ [Posted msg hwnd]))))),
       {| window := foldl delivered (window w) (before ++ [Posted msg hwnd]);
          swapChainDesc := swapChainDesc w;
          calls := calls w ++ l |}) /\
    presents l = 0%nat.
Proof.
  revert w. induction before as [|d before IH]; intros w Hq Hm.
  - destruct hwnd; simpl; pump_simpl.
    + match goal with |- context [WindowProc p msg ?w0] =>
        destruct (WindowProc_spec p msg w0) as (r & l0 & -> & Hl0) end.
      pump_simpl. rewrite Hm. simpl.
      exists ([TranslateMessage msg] ++ l0).
      rewrite !presents_app, Hl0, <- !app_assoc. done.
    + rewrite Hm. simpl. exists [TranslateMessage msg]. done.
  - simpl in Hq. apply andb_prop in Hq as [Hd Hq]. apply negb_true_iff in Hd.
    destruct d as [msg'|msg' [|]]; simpl pump; simpl in Hd; pump_simpl.
    + destruct (WindowProc_spec p msg' w) as (r & l0 & -> & Hl0). pump_simpl.
      match goal with |- context [pump p _ ?w1] =>
        destruct (IH w1 Hq Hm) as (l & -> & Hl) end.
      exists (l0 ++ l). rewrite presents_app, Hl0, Hl, app_assoc. done.
    + match goal with |- context [WindowProc p msg' ?w0] =>
        destruct (WindowProc_spec p msg' w0) as (r & l0 & -> & Hl0) end.
      pump_simpl. rewrite Hd.
      match goal with |- context [pump p _ ?w1] =>
        destruct (IH w1 Hq Hm) as (l & -> & Hl) end.
      exists ([TranslateMessage msg'] ++ l0 ++ l).
      rewrite !presents_app, Hl0, Hl. cbn [window swapChainDesc calls].
      by rewrite <- !app_assoc.
    + rewrite Hd.
      match goal with |- context [pump p _ ?w1] =>
        destruct (IH w1 Hq Hm) as (l & -> & Hl) end.
      exists ([TranslateMessage msg'] ++ l).
      rewrite !presents_app, Hl. cbn [window swapChainDesc calls].
      by rewrite <- !app_assoc.
Qed.

Lemma WindowProc_notifies (p : Platform) (msg : MSG) :
  respects no_present any (WindowProc p msg).
Proof. unfold WindowProc. repeat respects_step. Qed.

Lemma pump_notifies (p : Platform) (batch : list Delivery) :
  respects no_present any (pump p batch).
Proof.
  induction batch as [|[msg|msg hwnd] batch IH]; simpl.
  - apply respects_ret; apply _.
  - apply respects_bind; [apply _..|apply WindowProc_notifies|by intros _].
  - repeat respects_step; try apply WindowProc_notifies.
Qed.

Lemma ready_notified (N : nat) (msg : MSG) (s : HelloSkiaWindow) :
  ready N s -> ready N (notified msg s).
Proof. unfold notified. by repeat case_match. Qed.

Lemma ready_delivered (N : nat) (batch : list Delivery) (s : HelloSkiaWindow) :
  ready N s -> ready N (foldl delivered s batch).
Proof.
  revert s. induction batch as [|d batch IH]; intros s Hr; [done|].
  simpl. apply IH. destruct d as [msg|msg [|]]; simpl; auto using ready_notified.
Qed.

Lemma mExitCode_delivered (s : HelloSkiaWindow) (d : Delivery) :
  mExitCode (delivered s d) = if closes d then Some 0 else mExitCode s.
Proof.
  destruct d as [msg|msg [|]]; simpl; [| |done]; unfold notified.
  all: destruct (Z.eqb_spec (message msg) WM_SIZE) as [E|_];
       [rewrite E; reflexivity|by case_match].
Qed.

Lemma mExitCode_foldl_delivered (batch : list Delivery) (s : HelloSkiaWindow) :
  mExitCode (foldl delivered s batch) =
    if existsb closes batch then Some 0
    else mExitCode s.
Proof.
  revert s. induction batch as [|d batch IH]; intros s; [done|].
  simpl. rewrite IH, mExitCode_delivered.
  by destruct (closes d), (existsb closes batch).
Qed.

Lemma presents_zero (l : list NativeCall) :
  Forall (fun c => is_present c = false) l -> presents l = 0%nat.
Proof. intros H. unfold presents. by rewrite filter_nil_Forall. Qed.

Lemma presents_frame_calls (i : nat) (frame : FrameContext) (size : PixelSize)
    (counter a b : Z) :
  presents (frame_calls i frame size counter a b) = 1%nat.
Proof. unfold frame_calls. by destruct (_ =? 0). Qed.

Lemma presents_resize_calls (p : Platform) (desc size : PixelSize)
    (s : HelloSkiaWindow) :
  presents (resize_calls p desc size s) = 0%nat.
Proof.
  apply presents_zero. unfold resize_calls.
  apply Forall_app; split; [|apply Forall_app; split].
  - apply Forall_quiesce_calls. intros c. by destruct c.
  - by repeat constructor.
  - apply Forall_create_calls. intros c. by destruct c.
Qed.

(** On a platform on which no call fails a ready controller renders, and
    stays ready. *)
Lemma RenderFrame_total (N : nat) (p : Platform) (w : World) :
  succeeds p ->
  ready N (window w) ->
  exists w' l,
    RenderFrame N p w = (Return tt, w') /\
    ready N (window w') /\
    mExitCode (window w') = mExitCode (window w) /\
    calls w' = calls w ++ l /\
    presents l = 1%nat.
Proof.
  intros Hp Hr.
  destruct (mPendingResize (window w)) as [size|] eqn:Hsize.
  - destruct Hr as (Hlen & Hi & _).
    assert (HN : (0 < N)%nat) by lia.
    pose proof (RenderFrame_resize_succeeds N p w size Hp HN Hlen Hsize) as E.
    cbv zeta in E. eexists _, _. split; [exact E|].
    cbn [window calls]. split_and!; [| |reflexivity|].
    + apply ready_after_frame. by apply ready_after_resize.
    + done.
    + by rewrite presents_app, presents_resize_calls, presents_frame_calls.
  - destruct (RenderFrame_ready N p w Hp Hr Hsize)
      as (frame & w' & _ & E & Hw & _ & Hc).
    eexists w', _. split; [exact E|]. split_and!; [| |exact Hc|].
    + rewrite Hw. by apply ready_after_frame.
    + by rewrite Hw.
    + apply presents_frame_calls.
Qed.

Lemma pace_spec (M : Z) (p : Platform) (w : World) :
  exists l,
    pace M p w =
      (Return tt,
       {| window := window w; swapChainDesc := swapChainDesc w;
          calls := calls w ++ l |}) /\
    presents l = 0%nat.
Proof.
  unfold pace. case_match.
  - exists []. rewrite app_nil_r. by destruct w.
  - eexists [_]. unfold call_, call, bind, ret. simpl. done.
Qed.

(** One turn of the loop on a batch that neither closes nor quits. *)
Lemma Run_turn (N : nat) (M : Z) (p : Platform) (batch : list Delivery)
    (feed : list (list Delivery)) (w : World) :
  succeeds p ->
  ready N (window w) ->
  mExitCode (window w) = None ->
  forallb (fun d => negb (ends_loop d)) batch = true ->
  exists w' l,
    Run N M p (batch :: feed) w = Run N M p feed w' /\
    ready N (window w') /\
    mExitCode (window w') = None /\
    calls w' = calls w ++ l /\
    presents l = 1%nat.
Proof.
  intros Hp Hr Hx Hb.
  assert (Hq : forallb (fun d => negb (quits d)) batch = true).
  { rewrite forallb_forall in *. intros d Hd. specialize (Hb d Hd).
    unfold ends_loop in Hb. by destruct (closes d), (quits d). }
  assert (Hc : existsb closes batch = false).
  { apply not_true_iff_false. intros [d [Hd Hcd]]%existsb_exists.
    rewrite forallb_forall in Hb. specialize (Hb d Hd).
    unfold ends_loop in Hb. by rewrite Hcd in Hb. }
  destruct (pump_no_quit p batch w Hq) as (l0 & E0 & Hl0).
  simpl. rewrite Hx, E0. rewrite bind_unfold.
  match goal with |- context [RenderFrame N p ?w1] =>
    destruct (RenderFrame_total N p w1 Hp) as (w2 & l1 & -> & Hr2 & Hx2 & Hc2 & Hl1)
  end.
  { by apply ready_delivered. }
  destruct (pace_spec M p w2) as (l2 & -> & Hl2).
  eexists _, (l0 ++ l1 ++ l2). split; [reflexivity|].
  cbn [window calls] in *. split_and!.
  - done.
  - rewrite Hx2, mExitCode_foldl_delivered, Hc. done.
  - rewrite Hc2. by rewrite <- !app_assoc.
  - by rewrite !presents_app, Hl0, Hl1, Hl2.
Qed.

(** The loop only ever appends to the log. *)
Lemma Run_extends (N : nat) (M : Z) (p : Platform)
    (feed : list (list Delivery)) (w : World) :
  exists l, calls (Run N M p feed w).2 = calls w ++ l.
Proof.
  revert w. induction feed as [|batch feed IH]; intros w; simpl.
  - exists []. rewrite app_nil_r. by case_match.
  - destruct (mExitCode (window w)); [exists []; by rewrite app_nil_r|].
    destruct (pump_notifies p batch w) as (l0 & E0 & _).
    destruct (pump p batch w) as [[[code|]|e] w1]; simpl in E0;
      [by exists l0| |by exists l0].
    assert (Hr : respects (fun _ => True) any (bind (RenderFrame N p) (fun _ => pace M p))).
    { apply respects_bind; [apply _..|apply RenderFrame_respects|intros _].
      intros w2. destruct (pace_spec M p w2) as (l2 & -> & _).
      exists l2. split_and!; [done|by apply Forall_true|done]. }
    destruct (Hr w1) as (l1 & E1 & _).
    destruct (bind (RenderFrame N p) (fun _ => pace M p) w1) as [[[]|e] w2]; simpl in E1.
    + destruct (IH w2) as (l2 & E2). exists (l0 ++ l1 ++ l2).
      cbv beta iota. rewrite E2, E1, E0. by rewrite <- !app_assoc.
    + exists (l0 ++ l1). cbv beta iota. cbn [snd].
      rewrite E1, E0. by rewrite <- !app_assoc.
Qed.

Lemma first_quit (batch : list Delivery) :
  existsb quits batch = true ->
  exists before msg hwnd after,
    batch = before ++ Posted msg hwnd :: after /\
    forallb (fun d => negb (quits d)) before = true /\
    message msg = WM_QUIT.
Proof.
  induction batch as [|d batch IH]; [done|]. simpl.
  destruct (quits d) eqn:Hd.
  - intros _. destruct d as [msg|msg hwnd]; [done|]. simpl in Hd.
    exists [], msg, hwnd, batch. split_and!; [done|done|by apply Z.eqb_eq].
  - intros H. destruct (IH H) as (before & msg & hwnd & after & -> & Hb & Hm).
    exists (d :: before), msg, hwnd, after. simpl. by rewrite Hd.
Qed.

(** The turn of the loop on a batch that closes or quits is the last. *)
Lemma Run_last_turn (N : nat) (M : Z) (p : Platform) (batch : list Delivery)
    (feed : list (list Delivery)) (w : World) :
  succeeds p ->
  ready N (window w) ->
  mExitCode (window w) = None ->
  existsb ends_loop batch = true ->
  exists w' l,
    Run N M p (batch :: feed) w = (Exited 0, w') /\
    calls w' = calls w ++ l /\
    (presents l <= 1)%nat.
Proof.
  intros Hp Hr Hx Hb.
  destruct (existsb quits batch) eqn:Hq.
  - destruct (first_quit batch Hq)
      as (before & msg & hwnd & after & -> & Hbefore & Hm).
    destruct (pump_quit p before after msg hwnd w Hbefore Hm) as (l & E & Hl).
    simpl. rewrite Hx, E. eexists _, l.
    rewrite mExitCode_foldl_delivered, Hx.
    split_and!; [by case_match|done|lia].
  - assert (Hq' : forallb (fun d => negb (quits d)) batch = true).
    { rewrite forallb_forall. intros d Hd. apply negb_true_iff.
      apply not_true_iff_false. intros Hqd.
      apply not_true_iff_false in Hq. apply Hq.
      apply existsb_exists. by exists d. }
    assert (Hc : existsb closes batch = true).
    { apply existsb_exists in Hb as (d & Hd & He).
      apply existsb_exists. exists d. split; [done|].
      rewrite forallb_forall in Hq'. specialize (Hq' d Hd).
      unfold ends_loop in He. by destruct (closes d), (quits d). }
    destruct (pump_no_quit p batch w Hq') as (l0 & E0 & Hl0).
    simpl. rewrite Hx, E0. rewrite bind_unfold.
    match goal with |- context [RenderFrame N p ?w1] =>
      destruct (RenderFrame_total N p w1 Hp)
        as (w2 & l1 & -> & Hr2 & Hx2 & Hc2 & Hl1)
    end.
    { by apply ready_delivered. }
    destruct (pace_spec M p w2) as (l2 & -> & Hl2).
    cbn [window calls] in *.
    rewrite mExitCode_foldl_delivered, Hc in Hx2.
    eexists _, (l0 ++ l1 ++ l2).
    split_and!.
    + destruct feed; simpl; by rewrite Hx2.
    + cbn [calls]. rewrite Hc2. by rewrite <- !app_assoc.
    + rewrite !presents_app, Hl0, Hl1, Hl2. lia.
Qed.


(** What [CheckHResult] does with a failure: the diagnostic goes to the
    debugger and [std::system_error] is thrown. *)
Lemma CheckHResult_failure (p : Platform) (hr : HRESULT) (w : World) :
  SUCCEEDED hr = false ->
  CheckHResult p hr w =
    (Throw (system_error hr),
     {| window := window w; swapChainDesc := swapChainDesc w;
        calls := calls w ++ [OutputDebugStringA hr] |}).
Proof. intros H. unfold CheckHResult. by rewrite H. Qed.

(** ** The claims *)


(** C3.  On a ring of [N >= 2] slots, [k] calls of [RenderFrame] in a row
    with no resize pending, on a platform on which no call fails, starting
    with the ring index at slot 0 (where construction and every quiescence
    leave it), all return and visit the slots in the order
    0, 1, ..., N-1, 0, 1, ...: the [j]-th call resets the allocator of slot
    [j mod N], one slot for each call. *)
Theorem RenderFrame_round_robin (N : nat) (p : Platform) (k : nat) (w : World) :
  (2 <= N)%nat ->
  succeeds p ->
  ready N (window w) ->
  mPendingResize (window w) = None ->
  mFrameIndex (window w) = 0%nat ->
  exists w',
    RenderFrames N p k w = (Return tt, w') /\
    slots_of <$> frame_logs N p k w = (fun j => [j `mod` N]%nat) <$> seq 0 k /\
    slots_of (emitted w w') = (fun j => j `mod` N)%nat <$> seq 0 k.
Proof.
  intros HN Hp Hr Hnone Hidx.
  destruct (RenderFrames_ready N p k w Hp Hr Hnone)
    as (w' & E & _ & _ & _ & Hc & _ & Hv & _).
  exists w'. split; [done|].
  rewrite Hidx in Hv.
  pose proof (round_robin_seq N k 0) as Hrr.
  rewrite Nat.Div0.mod_0_l in Hrr. rewrite Hrr in Hv by lia. simpl in Hv.
  split.
  - rewrite Hv. by rewrite <- list_fmap_compose.
  - rewrite (emitted_app _ _ _ Hc), slots_of_concat, Hv.
    apply concat_singletons.
Qed.

(** C4.  A ring of two, just constructed, on a platform on which no call
    fails: five calls of [RenderFrame] with no resize all return; each call
    puts two markers on the queue, first the non-library signal and then
    the library flush; the ten markers are 1, 2, ..., 10 in this order; and
    the slots are visited in the order 0, 1, 0, 1, 0. *)
Theorem five_frames_on_a_ring_of_two (p : Platform) (desc : PixelSize) :
  succeeds p ->
  exists w0 w5,
    construct 2 p desc = (Return tt, w0) /\
    RenderFrames 2 p 5 w0 = (Return tt, w5) /\
    submissions_of <$> frame_logs 2 p 5 w0 =
      [[(NonLibrary, 1); (Library, 2)];
       [(NonLibrary, 3); (Library, 4)];
       [(NonLibrary, 5); (Library, 6)];
       [(NonLibrary, 7); (Library, 8)];
       [(NonLibrary, 9); (Library, 10)]] /\
    markers_of (emitted w0 w5) = [1; 2; 3; 4; 5; 6; 7; 8; 9; 10] /\
    StronglySorted Z.lt (markers_of (emitted w0 w5)) /\
    slots_of (emitted w0 w5) = [0; 1; 0; 1; 0]%nat.
Proof.
  intros Hp.
  set (w0 := {| window := constructed 2 p desc; swapChainDesc := desc;
                calls := create_calls p desc 0 (replicate 2 released) |}).
  destruct (RenderFrames_ready 2 p 5 w0 Hp) as
    (w5 & E & _ & _ & _ & Hc & _ & Hv & Hm & _);
    [apply ready_constructed; lia|done|].
  change (mFenceValue (window w0)) with 0 in Hm.
  change (mFrameIndex (window w0)) with 0%nat in Hv.
  assert (Hms : markers_of (emitted w0 w5) = [1; 2; 3; 4; 5; 6; 7; 8; 9; 10]).
  { rewrite (emitted_app _ _ _ Hc), markers_of_concat.
    rewrite (list_fmap_ext markers_of (fmap snd ∘ submissions_of)
               (frame_logs 2 p 5 w0) (fun _ l _ => markers_of_submissions l)).
    rewrite list_fmap_compose, Hm. reflexivity. }
  exists w0, w5. split_and!.
  - by apply construct_succeeds.
  - exact E.
  - exact Hm.
  - exact Hms.
  - rewrite Hms. repeat (constructor; [|repeat constructor; lia]). constructor.
  - rewrite (emitted_app _ _ _ Hc), slots_of_concat, Hv. reflexivity.
Qed.

Lemma rendering_not_resize_call (c : NativeCall) :
  rendering c = true -> ~ resize_call c = true.
Proof. unfold rendering. destruct (resize_call c), (frame_call c); naive_solver. Qed.

Lemma frame_call_not_resizing (c : NativeCall) :
  frame_call c = true -> resizing c = false.
Proof. unfold resizing. intros ->. by rewrite andb_false_r. Qed.

Lemma surfaces_create_frames (p : Platform) (desc : PixelSize) (i : nat)
    (l : list FrameContext) :
  Forall (fun f => FrameContext.mSkSurface f = Some (surface_of desc) /\
                   held (FrameContext.mRenderTarget f) = true)
    (create_frames p desc i l).
Proof. revert i. induction l as [|f l IH]; intros i; simpl; by constructor. Qed.

Lemma to_int_small (z : Z) : 0 <= z < 2 ^ 31 -> to_int z = z.
Proof.
  intros H. unfold to_int, UINT_MODULUS.
  rewrite Z.mod_small by lia. destruct (Z.ltb_spec z (2 ^ 31)); lia.
Qed.

(** C6.  Within one call of [RenderFrame] nothing that belongs to applying
    a resize (quiescence, releases, [ResizeBuffers], recreation) is called
    once work of the frame proper has been called, whatever the platform
    answers.  And with a resize to [size] pending, on a platform on which
    no call fails, [RenderFrame] returns having called, in this order: the
    quiescence (the Skia flush-and-submit with CPU sync, the signal of a new
    marker, the CPU wait for it), the release of every slot's surface and
    render target, [ResizeBuffers] with the pending size, the recreation of
    every slot, and only then the frame on slot 0.  Afterwards nothing is
    pending, the window size is [size], and every slot has a render target
    and a surface of the swap chain's new extent, which is [size] when both
    its extents are positive. *)
Theorem pending_resize_applied_before_rendering (N : nat) (p : Platform)
    (w : World) :
  (forall pre c post,
     emitted w (RenderFrame N p w).2 = pre ++ c :: post ->
     rendering c = true ->
     Forall (fun c' => resizing c' = false) post) /\
  (forall size,
     succeeds p ->
     (0 < N)%nat ->
     length (mFrames (window w)) = N ->
     mPendingResize (window w) = Some size ->
     exists w',
       RenderFrame N p w = (Return tt, w') /\
       emitted w w' =
         quiesce_calls (window w) ++
         [SwapChain_ResizeBuffers (mWidth size) (mHeight size)] ++
         create_calls p (new_desc p w size) 0 (replicate N released) ++
         frame_calls 0 (created p (new_desc p w size) 0 released) size
           (to_uint64 (mFrameCounter (window w) + 1))
           (to_uint64 (mFenceValue (window w) + 2))
           (to_uint64 (mFenceValue (window w) + 3)) /\
       mPendingResize (window w') = None /\
       mWindowSize (window w') = size /\
       swapChainDesc w' = new_desc p w size /\
       length (mFrames (window w')) = N /\
       Forall (fun f =>
                 FrameContext.mSkSurface f = Some (surface_of (new_desc p w size)) /\
                 held (FrameContext.mRenderTarget f) = true)
         (mFrames (window w')) /\
       (0 < mWidth size < 2 ^ 31 -> 0 < mHeight size < 2 ^ 31 ->
        new_desc p w size = size /\
        surface_of (new_desc p w size)
        = {| fWidth := mWidth size; fHeight := mHeight size |})).
Proof.
  split.
  - intros pre c post E Hc.
    destruct (RenderFrame_two_parts N p w) as (l1 & l2 & E12 & H1 & H2).
    rewrite E12 in E.
    destruct (split_in_second _ l1 l2 pre post c H1
                (rendering_not_resize_call c Hc) E) as (pre' & ->).
    apply Forall_app in H2 as [_ H2]. apply Forall_cons in H2 as [_ H2].
    eapply Forall_impl; [exact H2|]. apply frame_call_not_resizing.
  - intros size Hp HN Hlen Hsize.
    pose proof (RenderFrame_resize_succeeds N p w size Hp HN Hlen Hsize) as E.
    simpl in E. eexists. split; [exact E|].
    cbn [window swapChainDesc calls].
    split_and!.
    + apply emitted_app. cbn [calls]. unfold resize_calls. rewrite Hlen.
      rewrite <- !app_assoc.
      rewrite to_uint64_add_l, to_uint64_add_l, <- !Z.add_assoc. done.
    + done.
    + done.
    + done.
    + cbn [after_frame mFrames after_resize].
      by rewrite length_alter, length_create_frames, length_replicate.
    + cbn [after_frame mFrames after_resize].
      apply Forall_alter; [apply surfaces_create_frames|]. by intros [].
    + intros Hw Hh. unfold new_desc, resized, surface_of. simpl.
      destruct (Z.eqb_spec (mWidth size) 0); [lia|].
      destruct (Z.eqb_spec (mHeight size) 0); [lia|].
      rewrite !to_int_small by lia. by destruct size.
Qed.







Lemma frame_calls_no_wait (i : nat) (frame : FrameContext) (size : PixelSize)
    (counter a b : Z) :
  FrameContext.mFenceValue frame = 0 ->
  Forall (fun c => fence_wait c = false) (frame_calls i frame size counter a b).
Proof. intros H. unfold frame_calls. rewrite H. simpl. by repeat constructor. Qed.

(** Frames on slots whose marker is zero: no wait for the fence. *)
Lemma fresh_slots_no_wait (N : nat) (p : Platform) (k : nat) (w : World)
    (i : nat) :
  succeeds p ->
  ready N (window w) ->
  mPendingResize (window w) = None ->
  ((0 < k)%nat -> mFrameIndex (window w) = i) ->
  (i + k <= N)%nat ->
  (forall j f, (i <= j)%nat -> mFrames (window w) !! j = Some f ->
               FrameContext.mFenceValue f = 0) ->
  exists w' l,
    RenderFrames N p k w = (Return tt, w') /\
    calls w' = calls w ++ l /\
    slots_of l = seq i k /\
    Forall (fun c => fence_wait c = false) l.
Proof.
  intros Hp. revert w i. induction k as [|k IH]; intros w i Hr Hnone Hi Hk Hz.
  - exists w, []. simpl. by rewrite app_nil_r.
  - assert (Hi' : mFrameIndex (window w) = i) by (apply Hi; lia).
    clear Hi. subst i.
    destruct (RenderFrame_ready N p w Hp Hr Hnone)
      as (frame & w1 & Hf & E1 & Hw1 & Hd1 & Hc1).
    destruct (IH w1 (S (mFrameIndex (window w)))) as (w' & l & E' & Hc' & Hs' & Hw').
    + rewrite Hw1. by apply ready_after_frame.
    + by rewrite Hw1.
    + intros Hk'. rewrite Hw1. simpl.
      rewrite Nat.mod_small by lia. lia.
    + lia.
    + intros j f Hj. rewrite Hw1. simpl.
      rewrite list_lookup_alter_ne by lia. apply Hz. lia.
    + eexists w', _. simpl. unfold bind at 1. rewrite E1.
      split_and!; [done| | |].
      * rewrite Hc', Hc1. by rewrite <- app_assoc.
      * unfold slots_of in *. rewrite omap_app.
        fold (slots_of (frame_calls (mFrameIndex (window w)) frame
                (mWindowSize (window w))
                (to_uint64 (mFrameCounter (window w) + 1))
                (to_uint64 (mFenceValue (window w) + 1))
                (to_uint64 (to_uint64 (mFenceValue (window w) + 1) + 1)))).
        rewrite visited_frame_calls, Hs'. done.
      * apply Forall_app. split; [|done].
        apply frame_calls_no_wait. by eapply Hz.
Qed.

(** C10.  When [CleanupFrameContexts] returns, the marker of every slot is
    zero and the ring index is 0, whatever the platform answers (it is the
    quiescence before a resize and the destructor's).  Consequently, with a
    resize pending, on a platform on which no call fails, the [N] calls of
    [RenderFrame] that follow return, and after the calls that apply the
    resize they reset the allocators of slots 0, 1, ..., N-1 in this order
    without a single [SetEventOnCompletion] or [WaitForSingleObject]. *)
Theorem quiescence_restarts_the_ring (N : nat) (p : Platform) (w : World) :
  (forall w',
     CleanupFrameContexts p w = (Return tt, w') ->
     Forall (fun f => FrameContext.mFenceValue f = 0) (mFrames (window w')) /\
     mFrameIndex (window w') = 0%nat /\
     length (mFrames (window w')) = length (mFrames (window w))) /\
  (forall size,
     succeeds p ->
     (0 < N)%nat ->
     length (mFrames (window w)) = N ->
     mPendingResize (window w) = Some size ->
     exists w' frames,
       RenderFrames N p N w = (Return tt, w') /\
       emitted w w' =
         resize_calls p (new_desc p w size) size (window w) ++ frames /\
       slots_of frames = seq 0 N /\
       Forall (fun c => fence_wait c = false) frames).
Proof.
  split.
  - intros w' E. apply CleanupFrameContexts_returns in E. subst w'. simpl.
    split_and!; [|done|by rewrite length_replicate].
    apply Forall_replicate. done.
  - intros size Hp HN Hlen Hsize.
    destruct N as [|n]; [lia|].
    pose proof (RenderFrame_resize_succeeds (S n) p w size Hp HN Hlen Hsize)
      as E. cbv zeta in E.
    match type of E with _ = (_, ?w) => set (w1 := w) in * end.
    destruct (fresh_slots_no_wait (S n) p n w1 1 Hp)
      as (w' & l & E' & Hc' & Hs' & Hw').
    + apply ready_after_frame. by apply ready_after_resize.
    + done.
    + intros Hn.
      change (mFrameIndex (window w1)) with ((0 + 1) `mod` S n)%nat.
      rewrite Nat.mod_small by lia. done.
    + lia.
    + intros j f Hj. simpl. rewrite list_lookup_alter_ne by lia.
      intros Hf.
      assert (Hm : (FrameContext.mFenceValue <$>
                      create_frames p (new_desc p w size) 0
                        (replicate (length (mFrames (window w))) released)) !! j
                   = Some (FrameContext.mFenceValue f)).
      { by rewrite list_lookup_fmap, Hf. }
      rewrite markers_create_frames, fmap_replicate in Hm.
      apply lookup_replicate in Hm as [Hm _]. by rewrite Hm.
    + eexists w', _. change (RenderFrames (S n) p (S n) w)
        with (bind (RenderFrame (S n) p) (fun _ => RenderFrames (S n) p n) w).
      unfold bind at 1. rewrite E. split_and!; [exact E'| | |].
      * apply emitted_app. rewrite Hc'. cbn [w1 calls].
        rewrite <- !app_assoc. reflexivity.
      * unfold slots_of in *. rewrite omap_app.
        fold (slots_of (frame_calls 0 (created p (new_desc p w size) 0 released) size
                (to_uint64 (mFrameCounter (window w) + 1))
                (to_uint64 (mFenceValue (after_resize p (new_desc p w size) size (window w)) + 1))
                (to_uint64 (to_uint64 (mFenceValue (after_resize p (new_desc p w size) size (window w)) + 1) + 1)))).
        rewrite visited_frame_calls, Hs'. done.
      * apply Forall_app. split; [|done]. by apply frame_calls_no_wait.
Qed.




(** C9.  From a ready controller with no exit code, on a platform on which
    no call fails: as long as no delivery closes the window or quits, the
    loop goes on, rendering one frame for each batch of deliveries; and it
    returns in the turn of the first batch in which [WM_CLOSE] reaches the
    window procedure or [WM_QUIT] is taken off the queue.  [Run] then
    returns 0, and so does [wWinMain] once the destructor has run. *)
Theorem render_loop_runs_until_close (N : nat) (M : Z) (p : Platform)
    (feed : list (list Delivery)) (w : World) :
  succeeds p ->
  ready N (window w) ->
  mExitCode (window w) = None ->
  (forallb (forallb (fun d => negb (ends_loop d))) feed = true ->
   exists w',
     Run N M p feed w = (Running, w') /\
     presents (emitted w w') = length feed) /\
  (forall before batch after,
     feed = before ++ batch :: after ->
     forallb (forallb (fun d => negb (ends_loop d))) before = true ->
     existsb ends_loop batch = true ->
     exists w' w'',
       Run N M p feed w = (Exited 0, w') /\
       wWinMain N M p feed w = (Exited 0, w'') /\
       (length before <= presents (emitted w w') <= length before + 1)%nat).
Proof.
  intros Hp Hr Hx. split.
  - revert w Hr Hx. induction feed as [|batch feed IH]; intros w Hr Hx Hf.
    + exists w. simpl. rewrite Hx. by rewrite emitted_refl.
    + simpl in Hf. apply andb_prop in Hf as [Hb Hf].
      destruct (Run_turn N M p batch feed w Hp Hr Hx Hb)
        as (w1 & l & -> & Hr1 & Hx1 & Hc1 & Hl).
      destruct (IH w1 Hr1 Hx1 Hf) as (w' & E & Hn).
      exists w'. split; [done|].
      assert (Hc : calls w' = calls w1 ++ emitted w1 w').
      { destruct (Run_extends N M p feed w1) as (l' & E').
        rewrite E in E'. simpl in E'. by rewrite (emitted_app _ _ _ E'). }
      rewrite (emitted_app w w' (l ++ emitted w1 w'))
        by (rewrite Hc, Hc1; by rewrite app_assoc).
      rewrite presents_app, Hl, Hn. done.
  - intros before batch after -> Hbefore Hbatch.
    revert w Hr Hx. induction before as [|b before IH]; intros w Hr Hx.
    + destruct (Run_last_turn N M p batch after w Hp Hr Hx Hbatch)
        as (w' & l & E & Hc & Hl).
      exists w'. eexists. simpl app. unfold wWinMain. rewrite E.
      rewrite (CleanupFrameContexts_succeeds p w' Hp).
      split_and!; [done|done| |]; rewrite (emitted_app _ _ _ Hc); simpl; lia.
    + simpl in Hbefore. apply andb_prop in Hbefore as [Hb Hbefore].
      destruct (Run_turn N M p b (before ++ batch :: after) w Hp Hr Hx Hb)
        as (w1 & l & E1 & Hr1 & Hx1 & Hc1 & Hl).
      destruct (IH Hbefore w1 Hr1 Hx1) as (w' & w'' & E & E' & Hn).
      exists w', w''. simpl app. unfold wWinMain in *. rewrite E1.
      split_and!; [done|done| |].
      all: assert (Hc : calls w' = calls w1 ++ emitted w1 w')
        by (destruct (Run_extends N M p (before ++ batch :: after) w1)
              as (l' & E''); rewrite E in E''; simpl in E'';
            by rewrite (emitted_app _ _ _ E'')).
      all: rewrite (emitted_app w w' (l ++ emitted w1 w'))
        by (rewrite Hc, Hc1; by rewrite app_assoc).
      all: rewrite presents_app, Hl; simpl; lia.
Qed.

(** ** Witnesses and concrete runs *)


Lemma quiet_succeeds : succeeds quiet.
Proof. intros n c. reflexivity. Defined.

Lemma ready_fresh2 : ready 2 (window fresh2).
Proof.
  split_and!; [reflexivity|vm_compute; lia|].
  vm_compute. repeat constructor.
Defined.


Lemma RenderFrame_round_robin_witness :
  (2 <= 2)%nat /\ succeeds quiet /\ ready 2 (window fresh2) /\
  mPendingResize (window fresh2) = None /\
  mFrameIndex (window fresh2) = 0%nat /\
  exists w',
    RenderFrames 2 quiet 5 fresh2 = (Return tt, w') /\
    slots_of <$> frame_logs 2 quiet 5 fresh2
      = (fun j => [j `mod` 2]%nat) <$> seq 0 5 /\
    slots_of (emitted fresh2 w') = (fun j => j `mod` 2)%nat <$> seq 0 5.
Proof.
  split_and!; [lia|exact quiet_succeeds|exact ready_fresh2|reflexivity..|].
  apply (RenderFrame_round_robin 2 quiet 5 fresh2);
    [lia|exact quiet_succeeds|exact ready_fresh2|reflexivity..].
Defined.

Lemma five_frames_on_a_ring_of_two_witness :
  succeeds quiet /\
  exists w0 w5,
    construct 2 quiet vga = (Return tt, w0) /\
    RenderFrames 2 quiet 5 w0 = (Return tt, w5) /\
    submissions_of <$> frame_logs 2 quiet 5 w0 =
      [[(NonLibrary, 1); (Library, 2)];
       [(NonLibrary, 3); (Library, 4)];
       [(NonLibrary, 5); (Library, 6)];
       [(NonLibrary, 7); (Library, 8)];
       [(NonLibrary, 9); (Library, 10)]] /\
    markers_of (emitted w0 w5) = [1; 2; 3; 4; 5; 6; 7; 8; 9; 10] /\
    StronglySorted Z.lt (markers_of (emitted w0 w5)) /\
    slots_of (emitted w0 w5) = [0; 1; 0; 1; 0]%nat.
Proof.
  split; [exact quiet_succeeds|].
  apply (five_frames_on_a_ring_of_two quiet vga quiet_succeeds).
Defined.


(** C8.  The third frame on a ring of two, on a platform on which
    [SetEventOnCompletion] fails with [E_FAIL]: [RenderFrame] calls it for
    the marker 2 of slot 0, does not look at the result, goes on to
    [WaitForSingleObject] and to the reset of the allocator, and returns
    without a diagnostic and without an exception.  [CleanupFrameContexts]
    makes the same call through [CheckHResult]: there the failure is
    reported to the debugger and thrown. *)
Theorem SetEventOnCompletion_unchecked_in_RenderFrame :
  SUCCEEDED E_FAIL = false /\
  (RenderFrame 2 fence_event_fails warm2).1 = Return tt /\
  take 3 (emitted warm2 (RenderFrame 2 fence_event_fails warm2).2)
    = [Fence_SetEventOnCompletion 2; WaitForSingleObject;
       CommandAllocator_Reset 0] /\
  List.filter diagnostic
    (emitted warm2 (RenderFrame 2 fence_event_fails warm2).2) = [] /\
  (CleanupFrameContexts fence_event_fails warm2).1
    = Throw (system_error E_FAIL) /\
  emitted warm2 (CleanupFrameContexts fence_event_fails warm2).2
    = [GrDirectContext_flushAndSubmit true; CommandQueue_Signal 5;
       Fence_SetEventOnCompletion 5; OutputDebugStringA E_FAIL].
Proof. split_and!; vm_compute; reflexivity. Qed.



Lemma pending_resize_applied_before_rendering_witness :
  succeeds quiet /\ (0 < 2)%nat /\
  length (mFrames (window resizing2)) = 2%nat /\
  mPendingResize (window resizing2) = Some {| mWidth := 800; mHeight := 600 |} /\
  exists w',
    RenderFrame 2 quiet resizing2 = (Return tt, w') /\
    mPendingResize (window w') = None /\
    mWindowSize (window w') = {| mWidth := 800; mHeight := 600 |} /\
    swapChainDesc w' = {| mWidth := 800; mHeight := 600 |}.
Proof.
  assert (H2 : (0 < 2)%nat) by lia.
  assert (H3 : length (mFrames (window resizing2)) = 2%nat) by reflexivity.
  assert (H4 : mPendingResize (window resizing2)
               = Some {| mWidth := 800; mHeight := 600 |}) by reflexivity.
  split_and!; [exact quiet_succeeds|exact H2|exact H3|exact H4|].
  destruct (proj2 (pending_resize_applied_before_rendering 2 quiet resizing2)
              {| mWidth := 800; mHeight := 600 |} quiet_succeeds H2 H3 H4)
    as (w' & E & _ & Hp & Hs & Hd & _ & _ & Hx).
  exists w'. split_and!; [exact E|exact Hp|exact Hs|].
  rewrite Hd. apply Hx; simpl; lia.
Defined.


Lemma quiescence_restarts_the_ring_witness :
  succeeds quiet /\ (0 < 2)%nat /\
  length (mFrames (window resizing2)) = 2%nat /\
  mPendingResize (window resizing2) = Some {| mWidth := 800; mHeight := 600 |} /\
  exists w' frames,
    RenderFrames 2 quiet 2 resizing2 = (Return tt, w') /\
    slots_of frames = seq 0 2 /\
    Forall (fun c => fence_wait c = false) frames.
Proof.
  assert (H2 : (0 < 2)%nat) by lia.
  assert (H3 : length (mFrames (window resizing2)) = 2%nat) by reflexivity.
  assert (H4 : mPendingResize (window resizing2)
               = Some {| mWidth := 800; mHeight := 600 |}) by reflexivity.
  split_and!; [exact quiet_succeeds|exact H2|exact H3|exact H4|].
  destruct (proj2 (quiescence_restarts_the_ring 2 quiet resizing2)
              {| mWidth := 800; mHeight := 600 |} quiet_succeeds H2 H3 H4)
    as (w' & frames & E & _ & Hs & Hw).
  exists w', frames. split_and!; [exact E|exact Hs|exact Hw].
Defined.

Lemma render_loop_runs_until_close_witness :
  succeeds quiet /\ ready 2 (window fresh2) /\
  mExitCode (window fresh2) = None /\
  (exists w',
     Run 2 60 quiet [[Sent (wm_size 800 600)]; []] fresh2 = (Running, w') /\
     presents (emitted fresh2 w') = 2%nat) /\
  (exists w' w'',
     Run 2 60 quiet [[Sent (wm_size 800 600)]; []; [Sent wm_close]; []] fresh2
       = (Exited 0, w') /\
     wWinMain 2 60 quiet [[Sent (wm_size 800 600)]; []; [Sent wm_close]; []] fresh2
       = (Exited 0, w'')).
Proof.
  assert (Hx : mExitCode (window fresh2) = None) by reflexivity.
  split_and!; [exact quiet_succeeds|exact ready_fresh2|exact Hx| |].
  - apply (proj1 (render_loop_runs_until_close 2 60 quiet
                    [[Sent (wm_size 800 600)]; []] fresh2
                    quiet_succeeds ready_fresh2 Hx)).
    reflexivity.
  - destruct (proj2 (render_loop_runs_until_close 2 60 quiet
                       [[Sent (wm_size 800 600)]; []; [Sent wm_close]; []] fresh2
                       quiet_succeeds ready_fresh2 Hx)
                [[Sent (wm_size 800 600)]; []] [Sent wm_close] [[]]
                eq_refl eq_refl eq_refl) as (w' & w'' & E & E' & _).
    exists w', w''. split; [exact E|exact E'].
Defined.

(** * The rest of the controller *)

(** ** Checked calls and cleanup *)

Lemma release_calls_released (i n : nat) :
  release_calls i (replicate n released) = [].
Proof. revert i. induction n as [|n IH]; intros i; simpl; [done|apply IH]. Qed.




(** X2.  When [CleanupFrameContexts] throws, whatever the platform answers:
    the exception is [std::system_error] with a failing code whose
    diagnostic is the last thing called; no slot has been touched and the
    ring index is where it was, while the counter has already moved on by
    one; and neither has the CPU waited on the fence event nor has any
    surface or render target been released. *)
Theorem CleanupFrameContexts_failure_releases_nothing (p : Platform)
    (w w' : World) (e : exception) :
  CleanupFrameContexts p w = (Throw e, w') ->
  mFrames (window w') = mFrames (window w) /\
  mFrameIndex (window w') = mFrameIndex (window w) /\
  mFenceValue (window w') = to_uint64 (mFenceValue (window w) + 1) /\
  Forall (fun c => is_release c = false /\ is_wait c = false) (emitted w w') /\
  exists hr,
    e = system_error hr /\ SUCCEEDED hr = false /\
    last (emitted w w') = Some (OutputDebugStringA hr).
Proof.
  rewrite CleanupFrameContexts_cases. cbv zeta.
  destruct (SUCCEEDED (hresult p (length (calls w) + 1) _)) eqn:H1;
    [destruct (SUCCEEDED (hresult p (length (calls w) + 2) _)) eqn:H2|];
    intros E; simplify_eq; simpl.
  - unfold emitted. simpl. rewrite drop_app_length.
    split_and!; [done|done|done|by repeat constructor|].
    eexists. by split_and!.
  - unfold emitted. simpl. rewrite drop_app_length.
    split_and!; [done|done|done|by repeat constructor|].
    eexists. by split_and!.
Qed.

Lemma CleanupFrameContexts_failure_releases_nothing_witness :
  CleanupFrameContexts fence_event_fails warm2
    = (Throw (system_error E_FAIL),
       (CleanupFrameContexts fence_event_fails warm2).2) /\
  mFrames (window (CleanupFrameContexts fence_event_fails warm2).2)
    = mFrames (window warm2) /\
  mFrameIndex (window (CleanupFrameContexts fence_event_fails warm2).2)
    = mFrameIndex (window warm2).
Proof.
  assert (E : CleanupFrameContexts fence_event_fails warm2
              = (Throw (system_error E_FAIL),
                 (CleanupFrameContexts fence_event_fails warm2).2))
    by (vm_compute; reflexivity).
  split; [exact E|].
  destruct (CleanupFrameContexts_failure_releases_nothing fence_event_fails
              warm2 _ _ E) as (H1 & H2 & _).
  split; [exact H1|exact H2].
Defined.

(** X3.  [CleanupFrameContexts] right after a [CleanupFrameContexts] that
    returned has nothing left to release: it flushes, signals the next
    marker and waits for it, and that is all it calls; the slots stay
    released and the ring index stays 0. *)
Theorem CleanupFrameContexts_twice (p : Platform) (w w1 w2 : World) :
  CleanupFrameContexts p w = (Return tt, w1) ->
  CleanupFrameContexts p w1 = (Return tt, w2) ->
  emitted w1 w2 =
    [GrDirectContext_flushAndSubmit true;
     CommandQueue_Signal (to_uint64 (mFenceValue (window w) + 2));
     Fence_SetEventOnCompletion (to_uint64 (mFenceValue (window w) + 2));
     WaitForSingleObject] /\
  mFrames (window w2) = mFrames (window w1) /\
  Forall (fun f => f = released) (mFrames (window w2)) /\
  mFrameIndex (window w2) = 0%nat.
Proof.
  intros E1 E2.
  apply CleanupFrameContexts_returns in E1. subst w1.
  apply CleanupFrameContexts_returns in E2. subst w2.
  unfold emitted. simpl. rewrite drop_app_length.
  unfold quiesce_calls. simpl.
  rewrite release_calls_released, to_uint64_succ_succ, length_replicate.
  split_and!; [done|done| |done].
  by apply Forall_replicate.
Qed.

Lemma CleanupFrameContexts_twice_witness :
  CleanupFrameContexts quiet warm2
    = (Return tt, (CleanupFrameContexts quiet warm2).2) /\
  CleanupFrameContexts quiet (CleanupFrameContexts quiet warm2).2
    = (Return tt,
       (CleanupFrameContexts quiet (CleanupFrameContexts quiet warm2).2).2) /\
  emitted (CleanupFrameContexts quiet warm2).2
    (CleanupFrameContexts quiet (CleanupFrameContexts quiet warm2).2).2 =
    [GrDirectContext_flushAndSubmit true;
     CommandQueue_Signal (to_uint64 (mFenceValue (window warm2) + 2));
     Fence_SetEventOnCompletion (to_uint64 (mFenceValue (window warm2) + 2));
     WaitForSingleObject].
Proof.
  assert (E1 : CleanupFrameContexts quiet warm2
               = (Return tt, (CleanupFrameContexts quiet warm2).2))
    by (vm_compute; reflexivity).
  assert (E2 : CleanupFrameContexts quiet (CleanupFrameContexts quiet warm2).2
               = (Return tt,
                  (CleanupFrameContexts quiet
                     (CleanupFrameContexts quiet warm2).2).2))
    by (vm_compute; reflexivity).
  split; [exact E1|]. split; [exact E2|].
  exact (proj1 (CleanupFrameContexts_twice quiet warm2 _ _ E1 E2)).
Defined.

(** X4.  [CreateRenderTargets] leaves the marker counter, the ring index and
    the marker of every slot as they are, and calls nothing that signals the
    queue, waits on the fence event or presents, whatever the platform
    answers and whether it returns or throws. *)
Theorem CreateRenderTargets_keeps_the_protocol_state (N : nat) (p : Platform)
    (w : World) :
  mFenceValue (window (CreateRenderTargets N p w).2) = mFenceValue (window w) /\
  mFrameIndex (window (CreateRenderTargets N p w).2) = mFrameIndex (window w) /\
  slot_markers (window (CreateRenderTargets N p w).2) = slot_markers (window w) /\
  length (mFrames (window (CreateRenderTargets N p w).2))
    = length (mFrames (window w)) /\
  Forall (fun c => signalled c = None /\ fence_wait c = false /\
                   is_present c = false)
    (emitted w (CreateRenderTargets N p w).2).
Proof.
  destruct (respects_emitted _ _ (CreateRenderTargets N p) w
              (CreateRenderTargets_keeps N p)) as (_ & Hl & Hf & Hi & Hm).
  split_and!; [done|done|done| |].
  - unfold slot_markers in Hm.
    by rewrite <- (length_fmap FrameContext.mFenceValue), Hm, length_fmap.
  - eapply Forall_impl; [exact Hl|]. intros c. by destruct c.
Qed.

(** ** The loop body of [CreateRenderTargets] *)

(** X5.  The body of the loop of [CreateRenderTargets] does not look at
    what [GetDesc1] reports.  When that call fails and every other call
    succeeds, the body still returns and writes no diagnostic, and the
    surface of the slot is wrapped with the extent found in the local
    [desc], which nothing has initialised. *)
Theorem GetDesc1_failure_goes_unnoticed (p : Platform) (i : nat) (w : World)
    (f : FrameContext) :
  mFrames (window w) !! i = Some f ->
  (forall n c, c <> SwapChain_GetDesc1 -> SUCCEEDED (hresult p n c) = true) ->
  (forall n, SUCCEEDED (hresult p n SwapChain_GetDesc1) = false) ->
  exists w' n,
    create_render_target p i w = (Return tt, w') /\
    FrameContext.mSkSurface <$> mFrames (window w') !! i
      = Some (Some (surface_of (indeterminate p n))) /\
    Forall (fun c => diagnostic c = false) (emitted w w').
Proof.
  intros Hi Hok Hfail. destruct w as [s desc log]. destruct f as [rt view sf m].
  simpl in *. unfold_cpp. simpl. rewrite Hi. simpl.
  destruct rt; simpl;
    repeat (progress (simpl; rewrite ?Hfail, ?Hok by done)).
  all: eexists _, _; split; [reflexivity|]; simpl.
  all: rewrite ?list_lookup_alter_eq, Hi; simpl.
  all: split; [reflexivity|].
  all: unfold emitted; simpl; rewrite <- ?app_assoc, drop_app_length.
  all: by repeat constructor.
Qed.

Lemma GetDesc1_failure_goes_unnoticed_witness :
  exists w' n,
    create_render_target desc_query_fails 0 fresh2 = (Return tt, w') /\
    FrameContext.mSkSurface <$> mFrames (window w') !! 0%nat
      = Some (Some (surface_of (indeterminate desc_query_fails n))) /\
    Forall (fun c => diagnostic c = false) (emitted fresh2 w').
Proof.
  apply (GetDesc1_failure_goes_unnoticed desc_query_fails 0 fresh2
           (FrameContext.mk (Some 0%nat) 4096
              (Some {| fWidth := 640; fHeight := 480 |}) 0)).
  - vm_compute. reflexivity.
  - intros n c Hc. destruct c; try reflexivity. by destruct Hc.
  - intros n. reflexivity.
Defined.

(** ** Invariants of the whole program *)

Section Guards.

Context (I : HelloSkiaWindow -> Prop) (E : exception -> Prop).

Lemma guards_ret {A} (a : A) : guards I E (ret a).
Proof. by intros w Hw. Qed.

Lemma guards_throw {A} (e : exception) : E e -> guards I E (@throw A e).
Proof. intros He w Hw. split; [done|]. by intros e' [= <-]. Qed.

Lemma guards_bind {A B} (m : M A) (k : A -> M B) :
  guards I E m -> (forall a, guards I E (k a)) -> guards I E (bind m k).
Proof.
  intros Hm Hk w Hw. unfold bind.
  destruct (Hm w Hw) as [H1 H2].
  destruct (m w) as [[a|e] w1]; simpl in *.
  - by apply Hk.
  - split; [done|]. intros e' [= <-]. by apply H2.
Qed.

Lemma guards_get_bind {B} (k : HelloSkiaWindow -> M B) :
  (forall s, I s -> guards I E (k s)) -> guards I E (bind get k).
Proof. intros Hk w Hw. unfold bind, get. by apply Hk. Qed.

Lemma guards_put (s : HelloSkiaWindow) : I s -> guards I E (put s).
Proof. by intros Hs w Hw. Qed.

Lemma guards_modify (f : HelloSkiaWindow -> HelloSkiaWindow) :
  (forall s, I s -> I (f s)) -> guards I E (modify f).
Proof. intros Hf w Hw. unfold modify, bind, get, put. simpl. split; auto. done. Qed.

Lemma guards_update_frame (i : nat) (f : FrameContext -> FrameContext) :
  (forall s, I s -> I (set_mFrames (alter f i (mFrames s)) s)) ->
  guards I E (update_frame i f).
Proof. intros H. by apply guards_modify. Qed.

Lemma guards_call (p : Platform) (c : NativeCall) : guards I E (call p c).
Proof. by intros w Hw. Qed.

Lemma guards_call_ (p : Platform) (c : NativeCall) : guards I E (call_ p c).
Proof. by intros w Hw. Qed.

Lemma guards_CheckHResult (p : Platform) (hr : HRESULT) :
  (forall hr, hr < 0 -> E (system_error hr)) ->
  guards I E (CheckHResult p hr).
Proof.
  intros HE w Hw. unfold CheckHResult.
  destruct (SUCCEEDED hr) eqn:Hhr; [done|].
  split; [done|]. intros e [= <-]. apply HE.
  unfold SUCCEEDED in Hhr. lia.
Qed.

Lemma guards_checked (p : Platform) (c : NativeCall) :
  (forall hr, hr < 0 -> E (system_error hr)) ->
  guards I E (checked p c).
Proof.
  intros HE. apply guards_bind; [apply guards_call|].
  intros hr. by apply guards_CheckHResult.
Qed.

Lemma guards_for_each {A} (l : list A) (body : A -> M unit) :
  (forall x, guards I E (body x)) -> guards I E (for_each l body).
Proof.
  intros Hb. induction l as [|x l IH]; simpl.
  - apply guards_ret.
  - apply guards_bind; [apply Hb|by intros _].
Qed.

Lemma guards_at_frame (i : nat) :
  (forall s, I s -> (i < length (mFrames s))%nat) ->
  guards I E (at_frame i).
Proof.
  intros Hi w Hw. unfold at_frame, bind, get.
  destruct (lookup_lt_is_Some_2 _ _ (Hi _ Hw)) as [frame ->]. done.
Qed.

Lemma guards_GetDesc1 (p : Platform) (desc : PixelSize) :
  guards I E (GetDesc1 p desc).
Proof. by intros w Hw. Qed.

Lemma guards_uninitialised (p : Platform) : guards I E (uninitialised p).
Proof. by intros w Hw. Qed.

Lemma guards_ResizeBuffers (p : Platform) (size : PixelSize) :
  guards I E (ResizeBuffers p size).
Proof. by intros w Hw. Qed.

Lemma guards_pace (M : Z) (p : Platform) : guards I E (pace M p).
Proof. intros w Hw. unfold pace. by case_match. Qed.

End Guards.

(** One step of a proof that a computation [guards] something. *)
Ltac guards_step :=
  lazymatch goal with
  | |- guards _ _ (ret _) => apply guards_ret
  | |- guards _ _ (throw _) => apply guards_throw
  | |- guards _ _ (bind get _) => apply guards_get_bind; intros ? ?
  | |- guards _ _ (call_ _ _) => apply guards_call_
  | |- guards _ _ (call _ _) => apply guards_call
  | |- guards _ _ (checked _ _) => apply guards_checked
  | |- guards _ _ (CheckHResult _ _) => apply guards_CheckHResult
  | |- guards _ _ (for_each _ _) => apply guards_for_each
  | |- guards _ _ (update_frame _ _) => apply guards_update_frame
  | |- guards _ _ (at_frame _) => apply guards_at_frame
  | |- guards _ _ (GetDesc1 _ _) => apply guards_GetDesc1
  | |- guards _ _ (uninitialised _) => apply guards_uninitialised
  | |- guards _ _ (ResizeBuffers _ _) => apply guards_ResizeBuffers
  | |- guards _ _ (pace _ _) => apply guards_pace
  | |- guards _ _ (modify _) => apply guards_modify
  | |- guards _ _ (put _) => apply guards_put
  | |- guards _ _ (bind _ _) => apply guards_bind
  | |- guards _ _ (match ?x with _ => _ end) => destruct x
  | |- guards _ _ (let _ := _ in _) => cbv zeta
  end;
  repeat match goal with |- forall _, _ => intro end.

Lemma failure_or_null_system_error (hr : HRESULT) :
  hr < 0 -> failure_or_null (system_error hr).
Proof. intros H. left. by exists hr. Qed.

(** What is left of a [ring] goal after the steps. *)
Ltac ring_side N :=
  lazymatch goal with
  | |- failure_or_null (system_error _) => by apply failure_or_null_system_error
  | |- failure_or_null null_pointer => by right
  | |- ring N _ =>
      repeat match goal with H : ring N _ |- _ => destruct H end;
      split; simpl; rewrite ?length_alter; try done; try lia;
      try (apply Nat.mod_upper_bound; lia)
  | |- (_ < length _)%nat =>
      repeat match goal with H : ring N _ |- _ => destruct H end;
      simpl; lia
  end.

Lemma CleanupFrameContexts_ring (N : nat) (p : Platform) :
  (0 < N)%nat ->
  guards (ring N) failure_or_null (CleanupFrameContexts p).
Proof.
  intros HN.
  unfold CleanupFrameContexts, release_frame, next_mFenceValue.
  repeat guards_step; ring_side N.
Qed.

Lemma CreateRenderTargets_ring (N : nat) (p : Platform) :
  guards (ring N) failure_or_null (CreateRenderTargets N p).
Proof.
  unfold CreateRenderTargets, create_render_target.
  repeat guards_step; ring_side N.
Qed.

Lemma RenderFrame_ring (N : nat) (p : Platform) :
  (0 < N)%nat ->
  guards (ring N) failure_or_null (RenderFrame N p).
Proof.
  intros HN.
  unfold RenderFrame. apply guards_bind; [|intros _].
  - unfold apply_pending_resize.
    repeat guards_step;
      try apply CleanupFrameContexts_ring;
      try apply CreateRenderTargets_ring; try done; ring_side N.
  - unfold render_on_next_slot, RenderNonSkiaContent, RenderSkiaContent,
      RenderSkiaContent_canvas, next_mFenceValue.
    repeat guards_step; ring_side N.
Qed.

Lemma WindowProc_ring (N : nat) (p : Platform) (msg : MSG) :
  guards (ring N) failure_or_null (WindowProc p msg).
Proof. unfold WindowProc. repeat guards_step; ring_side N. Qed.

Lemma pump_ring (N : nat) (p : Platform) (batch : list Delivery) :
  guards (ring N) failure_or_null (pump p batch).
Proof.
  induction batch as [|[msg|msg hwnd] batch IH]; simpl.
  - apply guards_ret.
  - apply guards_bind; [apply WindowProc_ring|by intros _].
  - repeat guards_step; try apply WindowProc_ring; try done; ring_side N.
Qed.

Lemma Run_ring (N : nat) (M : Z) (p : Platform) (feed : list (list Delivery))
    (w : World) :
  (0 < N)%nat ->
  ring N (window w) ->
  ring N (window (Run N M p feed w).2) /\
  forall e, (Run N M p feed w).1 = Terminated e -> failure_or_null e.
Proof.
  intros HN. revert w. induction feed as [|batch feed IH]; intros w Hw; simpl.
  - by case_match.
  - destruct (mExitCode (window w)); [done|].
    destruct (pump_ring N p batch w Hw) as [H1 H2].
    destruct (pump p batch w) as [[[code|]|e] w1]; simpl in *.
    + done.
    + assert (G : guards (ring N) failure_or_null
                    (bind (RenderFrame N p) (fun _ => pace M p))).
      { apply guards_bind; [by apply RenderFrame_ring|intros _].
        apply guards_pace. }
      destruct (G w1 H1) as [H3 H4].
      destruct (bind (RenderFrame N p) (fun _ => pace M p) w1)
        as [[[]|e] w2]; simpl in *.
      * by apply IH.
      * split; [done|]. intros e' [= <-]. by apply H4.
    + split; [done|]. intros e' [= <-]. by apply H2.
Qed.

(** X6.  On a ring of at least one slot, whatever the platform answers and
    whatever the window system delivers, the program from [Run] to the end
    of the destructor keeps the ring: [mFrames] has its [SwapChainLength]
    slots and [mFrameIndex] stays below [SwapChainLength].  So
    [mFrames.at] never throws: what ends the program other than the exit
    code is [std::system_error] with a negative code, or the use of a
    surface that the factory returned as null. *)
Theorem wWinMain_keeps_the_ring (N : nat) (M : Z) (p : Platform)
    (feed : list (list Delivery)) (w : World) :
  (0 < N)%nat ->
  ring N (window w) ->
  ring N (window (wWinMain N M p feed w).2) /\
  (wWinMain N M p feed w).1 <> Terminated out_of_range /\
  forall e, (wWinMain N M p feed w).1 = Terminated e ->
    (exists hr, e = system_error hr /\ hr < 0) \/ e = null_pointer.
Proof.
  intros HN Hw.
  assert (H : ring N (window (wWinMain N M p feed w).2) /\
              forall e, (wWinMain N M p feed w).1 = Terminated e ->
                failure_or_null e).
  { unfold wWinMain. destruct (Run_ring N M p feed w HN Hw) as [H1 H2].
    destruct (Run N M p feed w) as [[code|e|] w1]; simpl in *; [|done..].
    destruct (CleanupFrameContexts_ring N p HN w1 H1) as [H3 H4].
    destruct (CleanupFrameContexts p w1) as [[[]|e] w2]; simpl in *; [done|].
    split; [done|]. intros e' [= <-]. by apply H4. }
  destruct H as [H1 H2]. split; [done|]. split.
  - intros He. destruct (H2 _ He) as [(hr & ? & _)|?]; done.
  - intros e He. exact (H2 e He).
Qed.

Lemma wWinMain_keeps_the_ring_witness :
  ring 2
    (window
       (wWinMain 2 60 quiet [[Sent (wm_size 800 600)]; [Sent wm_close]; []]
          fresh2).2).
Proof.
  assert (H0 : (0 < 2)%nat) by lia.
  assert (H1 : ring 2 (window fresh2))
    by (split; vm_compute; [reflexivity|lia]).
  exact (proj1 (wWinMain_keeps_the_ring 2 60 quiet
                  [[Sent (wm_size 800 600)]; [Sent wm_close]; []]
                  fresh2 H0 H1)).
Defined.

(** ** The loop, the window procedure and the window *)

Lemma unset_or_zero_notified (msg : MSG) (s : HelloSkiaWindow) :
  unset_or_zero s -> unset_or_zero (notified msg s).
Proof.
  unfold notified, unset_or_zero. repeat case_match; simpl; auto.
Qed.

(** What is left of an [unset_or_zero] goal after the steps. *)
Ltac exit_side :=
  lazymatch goal with
  | |- unset_or_zero _ => unfold unset_or_zero in *; simpl; auto
  | |- _ => done
  end.

Lemma RenderFrame_exit (N : nat) (p : Platform) :
  guards unset_or_zero (fun _ => True) (RenderFrame N p).
Proof.
  unfold RenderFrame, apply_pending_resize, render_on_next_slot,
    RenderNonSkiaContent, RenderSkiaContent, RenderSkiaContent_canvas,
    CleanupFrameContexts, CreateRenderTargets, create_render_target,
    release_frame, next_mFenceValue, at_frame.
  repeat guards_step; exit_side.
Qed.

Lemma pump_exit (p : Platform) (batch : list Delivery) (w w1 : World)
    (r : option Z) :
  unset_or_zero (window w) ->
  pump p batch w = (Return r, w1) ->
  unset_or_zero (window w1) /\ forall code, r = Some code -> code = 0.
Proof.
  revert w. induction batch as [|d batch IH]; intros w Hw.
  - simpl. unfold ret. intros [= <- <-]. done.
  - destruct d as [msg|msg [|]]; simpl pump; pump_simpl.
    + destruct (WindowProc_spec p msg w) as (r0 & l0 & -> & _). pump_simpl.
      apply IH. by apply unset_or_zero_notified.
    + match goal with |- context [WindowProc p msg ?w0] =>
        destruct (WindowProc_spec p msg w0) as (r0 & l0 & -> & _) end.
      pump_simpl. destruct (message msg =? WM_QUIT).
      * pump_simpl. intros [= <- <-]. simpl.
        pose proof (unset_or_zero_notified msg _ Hw) as H.
        split; [done|]. intros code [= <-].
        destruct H as [-> | ->]; done.
      * apply IH. simpl. by apply unset_or_zero_notified.
    + destruct (message msg =? WM_QUIT).
      * pump_simpl. intros [= <- <-]. simpl. split; [done|].
        intros code [= <-]. destruct Hw as [-> | ->]; done.
      * by apply IH.
Qed.

Lemma Run_exit (N : nat) (M : Z) (p : Platform) (feed : list (list Delivery))
    (w w' : World) (code : Z) :
  unset_or_zero (window w) ->
  Run N M p feed w = (Exited code, w') ->
  code = 0.
Proof.
  revert w. induction feed as [|batch feed IH]; intros w Hw; simpl.
  - destruct Hw as [Hw | Hw]; rewrite Hw; [done|]. by intros [= <- _].
  - destruct (mExitCode (window w)) as [c|] eqn:Hc.
    { destruct Hw as [Hw | Hw]; rewrite Hw in Hc; [done|].
      injection Hc as <-. by intros [= <- _]. }
    destruct (pump p batch w) as [[r|e] w1] eqn:E0; [|done].
    destruct (pump_exit p batch w w1 r Hw E0) as [H1 H2].
    destruct r as [c|].
    + intros [= <- _]. by apply H2.
    + assert (G : guards unset_or_zero (fun _ => True)
                    (bind (RenderFrame N p) (fun _ => pace M p))).
      { apply guards_bind; [apply RenderFrame_exit|intros _].
        apply guards_pace. }
      destruct (G w1 H1) as [H3 _].
      destruct (bind (RenderFrame N p) (fun _ => pace M p) w1)
        as [[[]|e] w2]; simpl in *; [|done].
      by apply IH.
Qed.

(** X7.  Whatever the platform answers and whatever the window system
    delivers, a program started with no exit code that exits does so with
    0: the code [Run] returns is never taken from [WM_QUIT], and the only
    value the window procedure stores is the 0 of [WM_CLOSE]. *)
Theorem wWinMain_exit_code_is_zero (N : nat) (M : Z) (p : Platform)
    (feed : list (list Delivery)) (w w' : World) (code : Z) :
  mExitCode (window w) = None ->
  wWinMain N M p feed w = (Exited code, w') ->
  code = 0.
Proof.
  intros Hw. unfold wWinMain.
  destruct (Run N M p feed w) as [[c|e|] w1] eqn:E; [|done..].
  destruct (CleanupFrameContexts p w1) as [[[]|e] w2]; [|done].
  intros [= <- _]. eapply Run_exit; [|exact E]. by left.
Qed.

Lemma wWinMain_exit_code_is_zero_witness :
  mExitCode (window fresh2) = None /\
  exists code w',
    wWinMain 2 60 quiet [[]; [Posted wm_quit false]] fresh2
      = (Exited code, w') /\
    code = 0.
Proof.
  assert (H0 : mExitCode (window fresh2) = None) by (vm_compute; reflexivity).
  split; [exact H0|].
  destruct (wWinMain 2 60 quiet [[]; [Posted wm_quit false]] fresh2)
    as [[code|e|] w'] eqn:E; [|vm_compute in E; discriminate..].
  exists code, w'. split; [reflexivity|].
  exact (wWinMain_exit_code_is_zero 2 60 quiet [[]; [Posted wm_quit false]]
           fresh2 w' code H0 E).
Defined.

(** X8.  When the program exits, whatever the platform answered on the
    way: [Run] returned that code, and then the destructor flushed the
    library, signalled a new marker, waited for it on the CPU and let go of
    each surface and render target still held, slot by slot; every slot
    ends up empty. *)
Theorem wWinMain_exit_releases_every_slot (N : nat) (M : Z) (p : Platform)
    (feed : list (list Delivery)) (w w' : World) (code : Z) :
  wWinMain N M p feed w = (Exited code, w') ->
  exists w1,
    Run N M p feed w = (Exited code, w1) /\
    emitted w1 w' =
      [GrDirectContext_flushAndSubmit true;
       CommandQueue_Signal (to_uint64 (mFenceValue (window w1) + 1));
       Fence_SetEventOnCompletion (to_uint64 (mFenceValue (window w1) + 1));
       WaitForSingleObject] ++
      release_calls 0 (mFrames (window w1)) /\
    mFrames (window w') = replicate (length (mFrames (window w1))) released.
Proof.
  unfold wWinMain.
  destruct (Run N M p feed w) as [[c|e|] w1] eqn:E; [|done..].
  destruct (CleanupFrameContexts p w1) as [[[]|e] w2] eqn:E1; [|done].
  intros [= <- <-]. exists w1. split; [done|].
  apply CleanupFrameContexts_returns in E1. subst w2.
  unfold emitted. simpl. by rewrite drop_app_length.
Qed.

Lemma wWinMain_exit_releases_every_slot_witness :
  exists code w' w1,
    wWinMain 2 60 quiet [[]; [Sent wm_close]] fresh2 = (Exited code, w') /\
    Run 2 60 quiet [[]; [Sent wm_close]] fresh2 = (Exited code, w1) /\
    mFrames (window w') = replicate (length (mFrames (window w1))) released.
Proof.
  destruct (wWinMain 2 60 quiet [[]; [Sent wm_close]] fresh2)
    as [[code|e|] w'] eqn:E; [|vm_compute in E; discriminate..].
  destruct (wWinMain_exit_releases_every_slot 2 60 quiet
              [[]; [Sent wm_close]] fresh2 w' code E) as (w1 & E1 & _ & Hf).
  exists code, w', w1. split; [reflexivity|]. split; [exact E1|exact Hf].
Defined.

(** X9.  The end of an iteration never throws and never touches the
    controller.  With a positive [MinimumFrameRate] and a clock that does
    not run backwards, it either calls nothing, the frame having taken
    longer than the interval, or it calls [MsgWaitForMultipleObjects] once
    with what is left of the interval in whole milliseconds, rounded down:
    a time-out between 0 and [frameInterval], which is at most a second. *)
Theorem pace_waits_for_the_rest_of_the_interval (M : Z) (p : Platform)
    (w : World) :
  0 < M ->
  0 <= frameDuration p (length (calls w)) ->
  let elapsed := frameDuration p (length (calls w)) in
  (frameInterval M * 1000000 < elapsed /\ pace M p w = (Return tt, w)) \/
  exists millis,
    pace M p w =
      (Return tt,
       {| window := window w; swapChainDesc := swapChainDesc w;
          calls := calls w ++ [MsgWaitForMultipleObjects millis] |}) /\
    0 <= millis <= frameInterval M /\ frameInterval M <= 1000 /\
    millis * 1000000 <= frameInterval M * 1000000 - elapsed
      < (millis + 1) * 1000000.
Proof.
  intros HM He elapsed. unfold pace. fold elapsed.
  assert (Hi : 0 <= frameInterval M <= 1000).
  { unfold frameInterval. rewrite Z.quot_div_nonneg by lia.
    split; [apply Z.div_pos; lia|].
    apply Z.div_le_upper_bound; nia. }
  destruct (Z.gtb_spec elapsed (frameInterval M * 1000000)) as [Hgt|Hle].
  - left. split; [lia|done].
  - right.
    set (d := frameInterval M * 1000000 - elapsed).
    assert (Hd : 0 <= d <= frameInterval M * 1000000) by (unfold d; lia).
    assert (Hq : Z.quot d 1000000 = d / 1000000)
      by (apply Z.quot_div_nonneg; lia).
    pose proof (Z.div_mod d 1000000 ltac:(lia)) as Hdm.
    pose proof (Z.mod_pos_bound d 1000000 ltac:(lia)) as Hmb.
    assert (Hr : 0 <= d / 1000000 <= frameInterval M) by (split; nia).
    exists (d / 1000000).
    unfold call_, call, bind, ret. simpl. rewrite Hq.
    unfold to_uint. rewrite Z.mod_small by (unfold UINT_MODULUS; lia).
    split; [done|]. split; [done|]. split; [lia|]. nia.
Qed.

Lemma pace_waits_for_the_rest_of_the_interval_witness :
  (frameInterval 60 * 1000000 < frameDuration quiet (length (calls fresh2)) /\
   pace 60 quiet fresh2 = (Return tt, fresh2)) \/
  exists millis,
    pace 60 quiet fresh2 =
      (Return tt,
       {| window := window fresh2; swapChainDesc := swapChainDesc fresh2;
          calls := calls fresh2 ++ [MsgWaitForMultipleObjects millis] |}) /\
    0 <= millis <= frameInterval 60 /\ frameInterval 60 <= 1000 /\
    millis * 1000000 <=
      frameInterval 60 * 1000000 - frameDuration quiet (length (calls fresh2))
      < (millis + 1) * 1000000.
Proof.
  apply (pace_waits_for_the_rest_of_the_interval 60 quiet fresh2).
  - lia.
  - vm_compute. discriminate.
Defined.

Lemma LOWORD_mod (l : Z) : LOWORD l = l mod 65536.
Proof. unfold LOWORD. change 65535 with (Z.ones 16). by rewrite Z.land_ones. Qed.

Lemma HIWORD_mod (l : Z) : HIWORD l = (l / 65536) mod 65536.
Proof.
  unfold HIWORD. change 65535 with (Z.ones 16).
  rewrite Z.land_ones by lia. by rewrite Z.shiftr_div_pow2 by lia.
Qed.

(** X10.  [WM_SIZE] never reaches [DefWindowProcW] and calls nothing: the
    window procedure returns 0 and leaves one thing behind, the pending
    resize, whose width and height are the two 16-bit halves of [lParam].
    Both lie between 0 and 65535 whatever [lParam] is, and an extent packed
    as [width + 65536 * height] with both in that range is read back as it
    was. *)
Theorem WM_SIZE_sets_the_pending_resize (p : Platform) (msg : MSG) (w : World) :
  message msg = WM_SIZE ->
  WindowProc p msg w =
    (Return 0,
     {| window := set_mPendingResize (Some (size_of msg)) (window w);
        swapChainDesc := swapChainDesc w; calls := calls w |}) /\
  0 <= mWidth (size_of msg) <= 65535 /\
  0 <= mHeight (size_of msg) <= 65535 /\
  forall width height,
    0 <= width <= 65535 -> 0 <= height <= 65535 ->
    lParam msg = width + 65536 * height ->
    size_of msg = {| mWidth := width; mHeight := height |}.
Proof.
  intros Hm. unfold WindowProc, size_of. rewrite Hm. simpl.
  rewrite LOWORD_mod, HIWORD_mod.
  pose proof (Z.mod_pos_bound (lParam msg) 65536 ltac:(lia)).
  pose proof (Z.mod_pos_bound (lParam msg / 65536) 65536 ltac:(lia)).
  split; [done|]. split; [lia|]. split; [lia|].
  intros width height Hw Hh ->.
  replace (width + 65536 * height) with (width + height * 65536) by lia.
  rewrite Z.mod_add, Z.div_add by lia.
  rewrite (Z.div_small width), (Z.mod_small width) by lia.
  by rewrite Z.add_0_l, Z.mod_small by lia.
Qed.

Lemma WM_SIZE_sets_the_pending_resize_witness :
  message (wm_size 800 600) = WM_SIZE /\
  WindowProc quiet (wm_size 800 600) fresh2 =
    (Return 0,
     {| window :=
          set_mPendingResize (Some (size_of (wm_size 800 600))) (window fresh2);
        swapChainDesc := swapChainDesc fresh2; calls := calls fresh2 |}) /\
  size_of (wm_size 800 600) = {| mWidth := 800; mHeight := 600 |}.
Proof.
  assert (Hm : message (wm_size 800 600) = WM_SIZE) by reflexivity.
  destruct (WM_SIZE_sets_the_pending_resize quiet (wm_size 800 600) fresh2 Hm)
    as (E & _ & _ & Hrt).
  split; [exact Hm|]. split; [exact E|].
  apply (Hrt 800 600); [lia|lia|reflexivity].
Defined.

(** X11.  The window is asked for with half the screen height and two
    thirds of that as its width, both rounded down: for a screen height
    that is not negative, neither is negative, the width is at most the
    height, and the proportions are 2 to 3 up to the rounding. *)
Theorem initial_extent_is_two_to_three (screenHeight : Z) :
  0 <= screenHeight ->
  0 <= initial_width screenHeight <= initial_height screenHeight /\
  2 * initial_height screenHeight <= screenHeight
    < 2 * initial_height screenHeight + 2 /\
  3 * initial_width screenHeight <= 2 * initial_height screenHeight
    < 3 * initial_width screenHeight + 3.
Proof.
  intros H. unfold initial_width, initial_height.
  rewrite (Z.quot_div_nonneg screenHeight 2) by lia.
  pose proof (Z.div_mod screenHeight 2 ltac:(lia)).
  pose proof (Z.mod_pos_bound screenHeight 2 ltac:(lia)).
  set (h := screenHeight / 2) in *.
  assert (0 <= h) by lia.
  rewrite (Z.quot_div_nonneg (h * 2) 3) by lia.
  pose proof (Z.div_mod (h * 2) 3 ltac:(lia)).
  pose proof (Z.mod_pos_bound (h * 2) 3 ltac:(lia)).
  lia.
Qed.

Lemma initial_extent_is_two_to_three_witness :
  initial_height 1080 = 540 /\ initial_width 1080 = 360 /\
  0 <= initial_width 1080 <= initial_height 1080.
Proof.
  split; [reflexivity|]. split; [reflexivity|].
  exact (proj1 (initial_extent_is_two_to_three 1080 ltac:(lia))).
Defined.

(** ** Runs on which no call fails *)

Lemma lookup_create_frames (p : Platform) (desc : PixelSize) (k i : nat)
    (l : list FrameContext) :
  create_frames p desc k l !! i = created p desc (k + i) <$> l !! i.
Proof.
  revert k i. induction l as [|f l IH]; intros k i; [done|].
  destruct i as [|i]; simpl.
  - by rewrite Nat.add_0_r.
  - rewrite IH. by rewrite Nat.add_succ_r.
Qed.

(** X12.  When no call fails, [CreateRenderTargets] returns with every slot
    filled: slot [i] holds buffer [i] of the swap chain, its view is the
    [i]-th descriptor of the heap, [rtvStart + i * rtvStep], its surface
    has the extent of the swap chain, and its marker is the one it had.
    This is so on a heap whose [SwapChainLength] descriptors fit the
    address space and for an extent that fits an [int]. *)
Theorem CreateRenderTargets_fills_every_slot (N : nat) (p : Platform)
    (w : World) :
  succeeds p ->
  length (mFrames (window w)) = N ->
  0 <= rtvStart p -> 0 < rtvStep p ->
  Z.of_nat N * rtvStep p <= 2 ^ 32 ->
  rtvStart p + Z.of_nat N * rtvStep p <= 2 ^ 64 ->
  0 <= mWidth (swapChainDesc w) < 2 ^ 31 ->
  0 <= mHeight (swapChainDesc w) < 2 ^ 31 ->
  exists w',
    CreateRenderTargets N p w = (Return tt, w') /\
    length (mFrames (window w')) = N /\
    forall i f,
      mFrames (window w) !! i = Some f ->
      mFrames (window w') !! i =
        Some (FrameContext.mk (Some i)
                (rtvStart p + Z.of_nat i * rtvStep p)
                (Some {| fWidth := mWidth (swapChainDesc w);
                         fHeight := mHeight (swapChainDesc w) |})
                (FrameContext.mFenceValue f)).
Proof.
  intros Hp Hlen Hs Hstep H32 H64 Hw Hh.
  eexists. split; [by apply CreateRenderTargets_succeeds|]. simpl.
  split; [by rewrite length_create_frames|].
  intros i f Hi. rewrite lookup_create_frames, Hi. simpl.
  assert (HiN : (i < N)%nat) by (rewrite <- Hlen; by eapply lookup_lt_Some).
  unfold created, rtv, surface_of.
  rewrite !to_int_small by done.
  unfold to_uint, to_uint64, UINT_MODULUS, UINT64_MODULUS.
  rewrite (Z.mod_small (Z.of_nat i * rtvStep p)) by nia.
  by rewrite Z.mod_small by nia.
Qed.

Lemma CreateRenderTargets_fills_every_slot_witness :
  exists w',
    CreateRenderTargets 2 quiet fresh2 = (Return tt, w') /\
    length (mFrames (window w')) = 2%nat /\
    forall i f,
      mFrames (window fresh2) !! i = Some f ->
      mFrames (window w') !! i =
        Some (FrameContext.mk (Some i)
                (rtvStart quiet + Z.of_nat i * rtvStep quiet)
                (Some {| fWidth := mWidth (swapChainDesc fresh2);
                         fHeight := mHeight (swapChainDesc fresh2) |})
                (FrameContext.mFenceValue f)).
Proof.
  apply (CreateRenderTargets_fills_every_slot 2 quiet fresh2).
  - exact quiet_succeeds.
  - vm_compute. reflexivity.
  - vm_compute. discriminate.
  - vm_compute. reflexivity.
  - vm_compute. discriminate.
  - vm_compute. discriminate.
  - vm_compute. split; [discriminate|reflexivity].
  - vm_compute. split; [discriminate|reflexivity].
Defined.

(** X13.  When no call fails, [RenderFrame] on a controller whose slots all
    have a surface returns, with or without a resize pending: it presents
    exactly once, the frame counter has moved on by one, nothing is pending
    any more, the slots all still have a surface, and the exit code is as
    it was. *)
Theorem RenderFrame_returns_having_presented_once (N : nat) (p : Platform)
    (w : World) :
  succeeds p ->
  ready N (window w) ->
  exists w',
    RenderFrame N p w = (Return tt, w') /\
    presents (emitted w w') = 1%nat /\
    ready N (window w') /\
    mFrameCounter (window w') = to_uint64 (mFrameCounter (window w) + 1) /\
    mPendingResize (window w') = None /\
    mExitCode (window w') = mExitCode (window w).
Proof.
  intros Hp Hr.
  destruct (mPendingResize (window w)) as [size|] eqn:Hsize.
  - destruct Hr as (Hlen & Hi & _).
    assert (HN : (0 < N)%nat) by lia.
    pose proof (RenderFrame_resize_succeeds N p w size Hp HN Hlen Hsize) as E.
    cbv zeta in E. eexists. split; [exact E|].
    unfold emitted. cbn [window calls]. rewrite drop_app_length.
    split_and!; [| |done..].
    + by rewrite presents_app, presents_resize_calls, presents_frame_calls.
    + apply ready_after_frame. by apply ready_after_resize.
  - destruct (RenderFrame_ready N p w Hp Hr Hsize)
      as (frame & w' & _ & E & Hw & _ & Hc).
    exists w'. split; [exact E|].
    rewrite (emitted_app _ _ _ Hc), Hw.
    split_and!; [| |done|done|done].
    + apply presents_frame_calls.
    + by apply ready_after_frame.
Qed.

Lemma RenderFrame_returns_having_presented_once_witness :
  exists w',
    RenderFrame 2 quiet resizing2 = (Return tt, w') /\
    presents (emitted resizing2 w') = 1%nat /\
    ready 2 (window w') /\
    mFrameCounter (window w')
      = to_uint64 (mFrameCounter (window resizing2) + 1) /\
    mPendingResize (window w') = None /\
    mExitCode (window w') = mExitCode (window resizing2).
Proof.
  apply (RenderFrame_returns_having_presented_once 2 quiet resizing2).
  - exact quiet_succeeds.
  - split; [vm_compute; reflexivity|].
    split; [vm_compute; lia|].
    vm_compute. repeat constructor.
Defined.

(** X14.  On a platform on which no call fails, the turn of the loop that
    ends it differs with how it is ended.  When [WM_QUIT] is taken off the
    queue, [Run] returns at once: nothing is presented in that turn.  When
    [WM_CLOSE] reaches the window procedure and no [WM_QUIT] follows in
    the batch, the turn still renders and presents its frame, and the
    exit code is only seen at the top of the next iteration.  Either way
    [Run] returns 0. *)
Theorem last_turn_presents_unless_quit (N : nat) (M : Z) (p : Platform)
    (batch : list Delivery) (feed : list (list Delivery)) (w : World) :
  succeeds p ->
  ready N (window w) ->
  mExitCode (window w) = None ->
  existsb ends_loop batch = true ->
  exists w',
    Run N M p (batch :: feed) w = (Exited 0, w') /\
    presents (emitted w w') = if existsb quits batch then 0%nat else 1%nat.
Proof.
  intros Hp Hr Hx Hb.
  destruct (existsb quits batch) eqn:Hq.
  - destruct (first_quit batch Hq)
      as (before & msg & hwnd & after & -> & Hbefore & Hm).
    destruct (pump_quit p before after msg hwnd w Hbefore Hm) as (l & E & Hl).
    simpl. rewrite Hx, E. eexists.
    rewrite mExitCode_foldl_delivered, Hx.
    split; [by case_match|].
    unfold emitted. cbn [calls]. by rewrite drop_app_length.
  - assert (Hq' : forallb (fun d => negb (quits d)) batch = true).
    { rewrite forallb_forall. intros d Hd. apply negb_true_iff.
      apply not_true_iff_false. intros Hqd.
      apply not_true_iff_false in Hq. apply Hq.
      apply existsb_exists. by exists d. }
    assert (Hc : existsb closes batch = true).
    { apply existsb_exists in Hb as (d & Hd & He).
      apply existsb_exists. exists d. split; [done|].
      rewrite forallb_forall in Hq'. specialize (Hq' d Hd).
      unfold ends_loop in He. by destruct (closes d), (quits d). }
    destruct (pump_no_quit p batch w Hq') as (l0 & E0 & Hl0).
    simpl. rewrite Hx, E0. rewrite bind_unfold.
    match goal with |- context [RenderFrame N p ?w1] =>
      destruct (RenderFrame_total N p w1 Hp)
        as (w2 & l1 & -> & Hr2 & Hx2 & Hc2 & Hl1)
    end.
    { by apply ready_delivered. }
    destruct (pace_spec M p w2) as (l2 & -> & Hl2).
    cbn [window calls] in *.
    rewrite mExitCode_foldl_delivered, Hc in Hx2.
    eexists. split.
    + destruct feed; simpl; by rewrite Hx2.
    + unfold emitted. cbn [calls]. rewrite Hc2, <- !app_assoc, drop_app_length.
      by rewrite !presents_app, Hl0, Hl1, Hl2.
Qed.

Lemma last_turn_presents_unless_quit_witness :
  (exists w',
     Run 2 60 quiet ([Sent wm_close] :: []) fresh2 = (Exited 0, w') /\
     presents (emitted fresh2 w') = 1%nat) /\
  (exists w',
     Run 2 60 quiet
       ([Sent wm_close;
         Posted {| message := WM_QUIT; wParam := 7; lParam := 0 |} false]
        :: []) fresh2 = (Exited 0, w') /\
     presents (emitted fresh2 w') = 0%nat).
Proof.
  split.
  - apply (last_turn_presents_unless_quit 2 60 quiet [Sent wm_close] []
             fresh2 quiet_succeeds ready_fresh2); vm_compute; reflexivity.
  - apply (last_turn_presents_unless_quit 2 60 quiet
             [Sent wm_close;
              Posted {| message := WM_QUIT; wParam := 7; lParam := 0 |} false]
             [] fresh2 quiet_succeeds ready_fresh2); vm_compute; reflexivity.
Defined.

(** ** A slot from one use to the next *)

(** Frames on other slots leave a slot as it is. *)
Lemma RenderFrames_other_slots (N : nat) (p : Platform) (k : nat) (j : nat)
    (w : World) :
  succeeds p ->
  ready N (window w) ->
  mPendingResize (window w) = None ->
  (forall t, (t < k)%nat -> ((mFrameIndex (window w) + t) `mod` N)%nat <> j) ->
  exists w',
    RenderFrames N p k w = (Return tt, w') /\
    ready N (window w') /\
    mPendingResize (window w') = None /\
    mFrameIndex (window w') = ((mFrameIndex (window w) + k) `mod` N)%nat /\
    mFrames (window w') !! j = mFrames (window w) !! j.
Proof.
  intros Hp. revert w. induction k as [|k IH]; intros w Hr Hnone Hj.
  - exists w. simpl. split_and!; try done.
    rewrite Nat.add_0_r, Nat.mod_small; [done|]. by destruct Hr as (_ & ? & _).
  - destruct (RenderFrame_ready N p w Hp Hr Hnone)
      as (frame & w1 & _ & E & Hw & _ & _).
    assert (Hi : (mFrameIndex (window w) < N)%nat) by (by destruct Hr as (_ & ? & _)).
    destruct (IH w1) as (w' & E' & Hr' & Hn' & Hi' & Hf').
    + rewrite Hw. by apply ready_after_frame.
    + by rewrite Hw.
    + intros t Ht. rewrite Hw. simpl.
      rewrite Nat.Div0.add_mod_idemp_l.
      replace (mFrameIndex (window w) + 1 + t)%nat
        with (mFrameIndex (window w) + S t)%nat by lia.
      apply Hj. lia.
    + exists w'. simpl. unfold bind. rewrite E.
      split_and!; try done.
      * rewrite Hi', Hw. simpl. rewrite Nat.Div0.add_mod_idemp_l.
        f_equal. lia.
      * rewrite Hf', Hw. simpl. apply list_lookup_alter_ne.
        specialize (Hj 0%nat ltac:(lia)).
        rewrite Nat.add_0_r, Nat.mod_small in Hj by done. done.
Qed.

Lemma mod_shift_ne (N i d : nat) :
  (i < N)%nat -> (0 < d < N)%nat -> ((i + d) `mod` N)%nat <> i.
Proof.
  intros Hi Hd E.
  pose proof (Nat.div_mod_eq (i + d) N) as H. rewrite E in H.
  destruct ((i + d) `div` N)%nat as [|q]; nia.
Qed.

(** X15.  On a platform on which no call fails, take a frame on slot [i]
    with nothing pending, then the [SwapChainLength - 1] frames on the
    other slots, then the next frame.  The first frame signals two markers,
    the second of them, [b], with the flush of the library; the last frame
    is on slot [i] again, and unless [b] is 0 it starts by waiting on the
    CPU for [b], the marker of the library flush and so of everything
    submitted for the slot, before it resets the slot's allocator. *)
Theorem slot_reuse_waits_for_the_library_flush (N : nat) (p : Platform)
    (w : World) :
  succeeds p ->
  ready N (window w) ->
  mPendingResize (window w) = None ->
  to_uint64 (mFenceValue (window w) + 2) <> 0 ->
  exists w1 wN w',
    RenderFrame N p w = (Return tt, w1) /\
    RenderFrames N p (N - 1) w1 = (Return tt, wN) /\
    RenderFrame N p wN = (Return tt, w') /\
    submissions_of (emitted w w1) =
      [(NonLibrary, to_uint64 (mFenceValue (window w) + 1));
       (Library, to_uint64 (mFenceValue (window w) + 2))] /\
    take 3 (emitted wN w') =
      [Fence_SetEventOnCompletion (to_uint64 (mFenceValue (window w) + 2));
       WaitForSingleObject;
       CommandAllocator_Reset (mFrameIndex (window w))].
Proof.
  intros Hp Hr Hnone Hb.
  assert (Hi : (mFrameIndex (window w) < N)%nat) by (by destruct Hr as (_ & ? & _)).
  destruct (RenderFrame_ready N p w Hp Hr Hnone)
    as (frame & w1 & Hf & E1 & Hw1 & _ & Hc1).
  assert (Hr1 : ready N (window w1))
    by (rewrite Hw1; by apply ready_after_frame).
  assert (Hn1 : mPendingResize (window w1) = None) by (by rewrite Hw1).
  destruct (RenderFrames_other_slots N p (N - 1) (mFrameIndex (window w)) w1
              Hp Hr1 Hn1) as (wN & EN & HrN & HnN & HiN & HfN).
  { intros t Ht. rewrite Hw1. simpl. rewrite Nat.Div0.add_mod_idemp_l.
    replace (mFrameIndex (window w) + 1 + t)%nat
      with (mFrameIndex (window w) + S t)%nat by lia.
    apply mod_shift_ne; lia. }
  assert (HiN' : mFrameIndex (window wN) = mFrameIndex (window w)).
  { rewrite HiN, Hw1. simpl. rewrite Nat.Div0.add_mod_idemp_l.
    replace (mFrameIndex (window w) + 1 + (N - 1))%nat
      with (mFrameIndex (window w) + 1 * N)%nat by lia.
    rewrite Nat.Div0.mod_add. by apply Nat.mod_small. }
  destruct (RenderFrame_ready N p wN Hp HrN HnN)
    as (frame' & w' & Hf' & E' & _ & _ & Hc').
  rewrite HiN', HfN, Hw1 in Hf'. simpl in Hf'.
  rewrite list_lookup_alter_eq, Hf in Hf'. simpl in Hf'.
  injection Hf' as <-.
  exists w1, wN, w'. split_and!; [done..| |].
  - rewrite (emitted_app _ _ _ Hc1), submission_frame_calls.
    by rewrite to_uint64_succ_succ.
  - rewrite (emitted_app _ _ _ Hc'). unfold frame_calls. simpl.
    rewrite to_uint64_succ_succ, HiN'.
    destruct (Z.eqb_spec (to_uint64 (mFenceValue (window w) + 2)) 0); done.
Qed.

Lemma slot_reuse_waits_for_the_library_flush_witness :
  exists w1 wN w',
    RenderFrame 2 quiet fresh2 = (Return tt, w1) /\
    RenderFrames 2 quiet (2 - 1) w1 = (Return tt, wN) /\
    RenderFrame 2 quiet wN = (Return tt, w') /\
    submissions_of (emitted fresh2 w1) =
      [(NonLibrary, to_uint64 (mFenceValue (window fresh2) + 1));
       (Library, to_uint64 (mFenceValue (window fresh2) + 2))] /\
    take 3 (emitted wN w') =
      [Fence_SetEventOnCompletion (to_uint64 (mFenceValue (window fresh2) + 2));
       WaitForSingleObject;
       CommandAllocator_Reset (mFrameIndex (window fresh2))].
Proof.
  apply (slot_reuse_waits_for_the_library_flush 2 quiet fresh2
           quiet_succeeds ready_fresh2).
  - vm_compute. reflexivity.
  - vm_compute. discriminate.
Defined.
